(** * pipe_tasks: coadd argument parser, QA timeout decorator, fake-source task

    A shallow embedding of

      - [python/lsst/pipe/tasks/coaddArgumentParser.py]
      - [python/lsst/pipe/tasks/qaTimeout.py]
      - [python/lsst/pipe/tasks/fakes.py]

    Python objects with dynamic attributes (the argparse namespace) are finite
    maps from attribute names to dynamically typed values; exceptions are an
    explicit result type; calls into the LSST framework (afw, skymap) go
    through an interface class and are recorded in a call log. *)

From Stdlib Require Import ZArith String List.
From Stdlib Require Import Floats.PrimFloat Floats.SpecFloat Floats.FloatOps.
From stdpp Require Import base option list gmap strings.

Set Warnings "-register-all,-inexact-float".

Local Open Scope string_scope.
Local Open Scope Z_scope.
Local Open Scope list_scope.

(** ** Exceptions and results *)

Inductive exn : Type :=
| RuntimeError (msg : string)
| TypeError
| AttributeError (name : string)
| IndexError
| ValueError
| OverflowError
| TimeoutError (msg : string)
| FrameworkError (msg : string).

Inductive result (A : Type) : Type :=
| Ok (a : A)
| Raise (e : exn).

Arguments Ok {A} a.
Arguments Raise {A} e.

(** ** Integer pixel geometry of [lsst.afw.geom]

    [Point2I] and [Extent2I] are pairs of C++ [int]s, 32 bits wide: a Python
    integer that does not fit is refused when one is constructed, and their
    arithmetic wraps around.  [Extent2I / int] is the C++ integer quotient
    (it truncates toward zero) and [Point2I - Extent2I] is componentwise. *)

Definition in_int (z : Z) : bool := (- 2 ^ 31 <=? z) && (z <? 2 ^ 31).

Definition wrap32 (z : Z) : Z := (z + 2 ^ 31) `mod` 2 ^ 32 - 2 ^ 31.

Record Point2I : Type := mkPoint2I { pt_x : Z; pt_y : Z }.
Record Extent2I : Type := mkExtent2I { ext_x : Z; ext_y : Z }.

Definition Extent2I_div (e : Extent2I) (k : Z) : Extent2I :=
  mkExtent2I (wrap32 (ext_x e ÷ k)) (wrap32 (ext_y e ÷ k)).

Definition Point2I_sub (p : Point2I) (e : Extent2I) : Point2I :=
  mkPoint2I (wrap32 (pt_x p - ext_x e)) (wrap32 (pt_y p - ext_y e)).

(** [Box2I]: an integer box kept as its minimum corner and its dimensions.
    The constructor [Box2I(minimum, dimensions)] normalises what it is
    given: a dimension of zero gives the empty box (at the origin, with zero
    dimensions), and a negative dimension is flipped about the corner, so
    that the stored dimensions of a non-empty box are positive. *)

Record Box2I : Type := mkBox2I { box_min : Point2I; box_dims : Extent2I }.

Definition Box2I_empty : Box2I := mkBox2I (mkPoint2I 0 0) (mkExtent2I 0 0).

(* one axis of the constructor: corner and dimension as stored *)
Definition Box2I_axis (minimum dimension : Z) : Z * Z :=
  if dimension <? 0
  then (wrap32 (minimum + (dimension + 1)), wrap32 (- dimension))
  else (minimum, dimension).

Definition Box2I_new (minimum : Point2I) (dimensions : Extent2I) : Box2I :=
  if (ext_x dimensions =? 0) || (ext_y dimensions =? 0) then Box2I_empty
  else
    let x := Box2I_axis (pt_x minimum) (ext_x dimensions) in
    let y := Box2I_axis (pt_y minimum) (ext_y dimensions) in
    mkBox2I (mkPoint2I (fst x) (fst y)) (mkExtent2I (snd x) (snd y)).

(** ** Angles of [lsst.afw.geom]

    An [Angle] is held in radians, as a double; [Angle(value, units)]
    multiplies the value by the size of the unit in radians. *)

Inductive AngleUnit : Type := radians | degrees | hours | arcminutes | arcseconds.

Definition PI : float := 3.141592653589793%float.

(* the unit in radians *)
Definition AngleUnit_val (u : AngleUnit) : float :=
  match u with
  | radians => 1
  | degrees => PI / 180
  | hours => PI * 15 / 180
  | arcminutes => PI / 60 / 180
  | arcseconds => PI / 180 / 3600
  end%float.

Record Angle : Type := mkAngle { asRadians : float }.

(* afwGeom.Angle(value, units) *)
Definition Angle_new (value : float) (units : AngleUnit) : Angle :=
  mkAngle (value * AngleUnit_val units)%float.

(** ** The framework interface

    What [coaddArgumentParser.py] uses of [lsst.afw.coord], of the WCS of
    [lsst.afw] and of [lsst.skymap].  The operations that compute on
    user-supplied data may raise. *)

Class Afw : Type := {
  IcrsCoord : Type;
  Point2D : Type;
  Wcs : Type;
  SkyMap : Type;
  SkyTractInfo : Type;
  (* afwCoord.IcrsCoord(ra, dec) *)
  IcrsCoord_new : Angle -> Angle -> IcrsCoord;
  (* afwGeom.Point2I(Point2D) *)
  Point2I_of_Point2D : Point2D -> Point2I;
  (* lsst.skymap.SkyMap(projection, pixelScale, overlap) *)
  SkyMap_new : string -> Angle -> Angle -> result SkyMap;
  getSkyTractId : SkyMap -> IcrsCoord -> result Z;
  getSkyTractInfo : SkyMap -> Z -> result SkyTractInfo;
  getWcs : SkyTractInfo -> Wcs;
  getCtrCoord : SkyTractInfo -> IcrsCoord;
  skyToPixel : Wcs -> IcrsCoord -> result Point2D
}.

Module CoaddArgumentParser.
Section WithFramework.
Context {F : Afw}.

(** *** Python values *)

Inductive value : Type :=
| VNone
| VInt (n : Z)
| VFloat (x : float)
| VStr (s : string)
| VList (l : list value)
| VCoord (c : IcrsCoord)
| VBox (b : Box2I)
| VWcs (w : Wcs)
| VSkyMap (m : SkyMap)
| VTractInfo (t : SkyTractInfo).

(** Calls into the sky map, tract and WCS objects, in the order made. *)
Inductive Call : Type :=
| Call_SkyMap (projection : string) (pixelScale overlap : Angle)
| Call_getSkyTractId (m : SkyMap) (c : IcrsCoord)
| Call_getSkyTractInfo (m : SkyMap) (tractId : Z)
| Call_getWcs (t : SkyTractInfo)
| Call_skyToPixel (w : Wcs) (c : IcrsCoord)
| Call_getCtrCoord (t : SkyTractInfo).

(** *** The monad: exceptions plus the call log *)

Definition M (A : Type) : Type := list Call -> result A * list Call.

Definition ret {A} (a : A) : M A := fun log => (Ok a, log).
Definition raise {A} (e : exn) : M A := fun log => (Raise e, log).
Definition bind {A B} (m : M A) (k : A -> M B) : M B :=
  fun log =>
    match m log with
    | (Ok a, log') => k a log'
    | (Raise e, log') => (Raise e, log')
    end.
Definition call {A} (c : Call) (r : result A) : M A :=
  fun log => (r, log ++ [c]).

Definition run {A} (m : M A) : result A * list Call := m [].

Notation "x <- m ;; k" := (bind m (fun x => k))
  (at level 100, m at next level, right associativity,
   format "'[v' x  <-  m  ;;  '/' k ']'").

(** *** Attribute access, indexing and iteration on Python values *)

(* [v is None]; also [v == None] on every value used here *)
Definition is_None (v : value) : bool :=
  match v with VNone => true | _ => false end.
Definition eq_None (v : value) : bool := is_None v.
Definition ne_None (v : value) : bool := negb (is_None v).

(* [obj.name] *)
Definition getattr (obj : gmap string value) (name : string) : M value :=
  match obj !! name with
  | Some v => ret v
  | None => raise (AttributeError name)
  end.

(* [obj.name = v] *)
Definition setattr (obj : gmap string value) (name : string) (v : value)
  : gmap string value := <[name := v]> obj.

(* [del obj.name] *)
Definition delattr (obj : gmap string value) (name : string)
  : M (gmap string value) :=
  match obj !! name with
  | Some _ => ret (delete name obj)
  | None => raise (AttributeError name)
  end.

Definition char_value (a : Ascii.ascii) : value := VStr (String a EmptyString).

(* [v[i]] for a constant index [i >= 0] *)
Definition getitem (v : value) (i : nat) : M value :=
  match v with
  | VList l =>
      match l !! i with
      | Some x => ret x
      | None => raise IndexError
      end
  | VStr s =>
      match String.get i s with
      | Some a => ret (char_value a)
      | None => raise IndexError
      end
  | _ => raise TypeError
  end.

(* the items [for x in v] visits *)
Definition iter (v : value) : M (list value) :=
  match v with
  | VList l => ret l
  | VStr s => ret (char_value <$> list_ascii_of_string s)
  | _ => raise TypeError
  end.

(* [l[i]] on a Python list held in a local variable *)
Definition list_getitem {A} (l : list A) (i : nat) : M A :=
  match l !! i with
  | Some x => ret x
  | None => raise IndexError
  end.

(* [[f(x) for x in l]] *)
Fixpoint comprehension {A B} (f : A -> M B) (l : list A) : M (list B) :=
  match l with
  | [] => ret []
  | x :: l' => y <- f x ;; ys <- comprehension f l' ;; ret (y :: ys)
  end.

(** *** Calls into the framework on dynamically typed arguments

    An argument of the wrong dynamic type is rejected with [TypeError], an
    integer that does not fit a C++ [int] with [OverflowError]; a method
    looked up on an object that does not have it is an [AttributeError]. *)

Definition call_Angle (v : value) (u : AngleUnit) : M Angle :=
  match v with
  | VFloat x => ret (Angle_new x u)
  | _ => raise TypeError
  end.

Definition call_Extent2I (x y : value) : M Extent2I :=
  match x, y with
  | VInt a, VInt b =>
      if in_int a && in_int b then ret (mkExtent2I a b) else raise OverflowError
  | _, _ => raise TypeError
  end.

Definition call_Point2I (x y : value) : M Point2I :=
  match x, y with
  | VInt a, VInt b =>
      if in_int a && in_int b then ret (mkPoint2I a b) else raise OverflowError
  | _, _ => raise TypeError
  end.

Definition call_SkyMap (projection : value) (pixelScale overlap : Angle)
  : M SkyMap :=
  match projection with
  | VStr p => call (Call_SkyMap p pixelScale overlap) (SkyMap_new p pixelScale overlap)
  | _ => raise TypeError
  end.

Definition call_getSkyTractId (obj arg : value) : M value :=
  match obj with
  | VSkyMap m =>
      match arg with
      | VCoord c => tractId <- call (Call_getSkyTractId m c) (getSkyTractId m c) ;;
                    ret (VInt tractId)
      | _ => raise TypeError
      end
  | _ => raise (AttributeError "getSkyTractId")
  end.

Definition call_getSkyTractInfo (obj arg : value) : M value :=
  match obj with
  | VSkyMap m =>
      match arg with
      | VInt tractId =>
          info <- call (Call_getSkyTractInfo m tractId) (getSkyTractInfo m tractId) ;;
          ret (VTractInfo info)
      | _ => raise TypeError
      end
  | _ => raise (AttributeError "getSkyTractInfo")
  end.

Definition call_getWcs (obj : value) : M value :=
  match obj with
  | VTractInfo t => call (Call_getWcs t) (Ok (VWcs (getWcs t)))
  | _ => raise (AttributeError "getWcs")
  end.

Definition call_getCtrCoord (obj : value) : M value :=
  match obj with
  | VTractInfo t => call (Call_getCtrCoord t) (Ok (VCoord (getCtrCoord t)))
  | _ => raise (AttributeError "getCtrCoord")
  end.

Definition call_skyToPixel (obj arg : value) : M Point2D :=
  match obj with
  | VWcs w =>
      match arg with
      | VCoord c => call (Call_skyToPixel w c) (skyToPixel w c)
      | _ => raise TypeError
      end
  | _ => raise (AttributeError "skyToPixel")
  end.

(** *** [CoaddArgumentParser.parse_args]

    The argument is the namespace returned by
    [pipeBase.ArgumentParser.parse_args(self, config, argv)]. *)

Definition parse_args (namespace : gmap string value) : M (gmap string value) :=
  projection <- getattr namespace "projection" ;;
  scale <- getattr namespace "scale" ;;
  pixelScale <- call_Angle scale arcseconds ;;
  overlap <- getattr namespace "overlap" ;;
  overlap <- call_Angle overlap degrees ;;
  skyMap <- call_SkyMap projection pixelScale overlap ;;
  let namespace := setattr namespace "skyMap" (VSkyMap skyMap) in

  r <- getattr namespace "radec" ;;
  namespace <-
    (if ne_None r then
       r <- getattr namespace "radec" ;;
       angs <- iter r ;;
       radec <- comprehension (fun ang => call_Angle ang degrees) angs ;;
       ra <- list_getitem radec 0 ;;
       dec <- list_getitem radec 1 ;;
       ret (setattr namespace "radec" (VCoord (IcrsCoord_new ra dec)))
     else ret namespace) ;;

  size <- getattr namespace "size" ;;
  size0 <- getitem size 0 ;;
  size <- getattr namespace "size" ;;
  size1 <- getitem size 1 ;;
  dimensions <- call_Extent2I size0 size1 ;;

  tractId <- getattr namespace "tract" ;;
  tractId <-
    (if is_None tractId then
       r <- getattr namespace "radec" ;;
       if is_None r then raise (RuntimeError "Must specify tract or radec")
       else
         skyMap <- getattr namespace "skyMap" ;;
         r <- getattr namespace "radec" ;;
         call_getSkyTractId skyMap r
     else ret tractId) ;;

  skyMap <- getattr namespace "skyMap" ;;
  info <- call_getSkyTractInfo skyMap tractId ;;
  let namespace := setattr namespace "skyTractInfo" info in
  info <- getattr namespace "skyTractInfo" ;;
  wcs <- call_getWcs info ;;
  let namespace := setattr namespace "wcs" wcs in

  (* determine bounding box *)
  llc <- getattr namespace "llc" ;;
  llcPixInd <-
    (if ne_None llc then
       llc <- getattr namespace "llc" ;;
       llc0 <- getitem llc 0 ;;
       llc <- getattr namespace "llc" ;;
       llc1 <- getitem llc 1 ;;
       call_Point2I llc0 llc1
     else
       r <- getattr namespace "radec" ;;
       if is_None r then raise (RuntimeError "Must specify llc or radec")
       else
         wcs <- getattr namespace "wcs" ;;
         r <- getattr namespace "radec" ;;
         ctrPixPos <- call_skyToPixel wcs r ;;
         let ctrPixInd := Point2I_of_Point2D ctrPixPos in
         ret (Point2I_sub ctrPixInd (Extent2I_div dimensions 2))) ;;
  let namespace := setattr namespace "bbox" (VBox (Box2I_new llcPixInd dimensions)) in
  r <- getattr namespace "radec" ;;
  namespace <-
    (if is_None r then
       info <- getattr namespace "skyTractInfo" ;;
       ctr <- call_getCtrCoord info ;;
       ret (setattr namespace "radec" ctr)
     else ret namespace) ;;

  namespace <- delattr namespace "llc" ;;
  namespace <- delattr namespace "size" ;;
  namespace <- delattr namespace "scale" ;;
  namespace <- delattr namespace "projection" ;;
  namespace <- delattr namespace "overlap" ;;
  namespace <- delattr namespace "tract" ;;

  ret namespace.

(** *** The parser object: class tables and declared arguments *)

Inductive ArgType : Type := type_str | type_int | type_float.

(* the keyword arguments of one [add_argument] call *)
Record Argument : Type := mkArgument {
  arg_name : string;
  arg_nargs : option nat;
  arg_type : ArgType;
  arg_default : value;
  arg_required : bool;
  arg_help : string
}.

Record Parser : Type := mkParser {
  _DefaultScale : gmap string float;
  _DefaultOverlap : gmap string float;
  arguments : list Argument
}.

(* [self.add_argument(...)] for an option string not yet declared *)
Definition add_argument (self : Parser) (a : Argument) : Parser :=
  mkParser (_DefaultScale self) (_DefaultOverlap self) (arguments self ++ [a]).

(* default plate scale for coadds (arcsec/pixel) *)
Definition class_DefaultScale : gmap string float :=
  <["lsstSim" := 0.14%float]> (<["suprimecam" := 0.14%float]> ∅).

(* default overlap of sky tracts (deg) *)
Definition class_DefaultOverlap : gmap string float :=
  <["lsstSim" := 3.5%float]> (<["suprimecam" := 1.5%float]> ∅).

(* [CoaddArgumentParser.__init__]; [base] is the parser state left by
   [pipeBase.ArgumentParser.__init__] *)
Definition __init__ (base : list Argument) : Parser :=
  let self := mkParser class_DefaultScale class_DefaultOverlap base in
  let self := add_argument self
    (mkArgument "--fwhm" None type_float (VFloat 0.0%float) false
       "Desired FWHM, in science exposure pixels; for no PSF matching omit or set to 0") in
  let self := add_argument self
    (mkArgument "--radec" (Some 2%nat) type_float VNone false
       "RA Dec to find tractId; center of coadd unless llc specified (ICRS, degrees)") in
  let self := add_argument self
    (mkArgument "--tract" None type_int VNone false
       "sky tract ID; if omitted, chooses the best sky tract for --radec") in
  let self := add_argument self
    (mkArgument "--llc" (Some 2%nat) type_int VNone false
       "x y index of lower left corner (pixels); if omitted, coadd is centered on --radec") in
  let self := add_argument self
    (mkArgument "--size" (Some 2%nat) type_int VNone false
       "x y size of coadd (pixels)") in
  add_argument self
    (mkArgument "--projection" None type_str (VStr "STG") false
       "WCS projection used for sky tracts, e.g. STG or TAN").

(* [d.get(key)] on a dict with string keys *)
Definition dict_get (d : gmap string float) (key : value) : M value :=
  match key with
  | VStr k => ret (from_option VFloat VNone (d !! k))
  | VList _ => raise TypeError
  | _ => ret VNone
  end.

Definition lift {A} (r : result A) : M A := fun log => (r, log).

(** *** [CoaddArgumentParser.handleCamera]

    [base_handleCamera] is [pipeBase.ArgumentParser.handleCamera]. *)

Definition handleCamera
    (base_handleCamera : Parser -> gmap string value ->
                         result (Parser * gmap string value))
    (self : Parser) (namespace : gmap string value)
  : M (Parser * gmap string value) :=
  camera <- getattr namespace "camera" ;;
  base <- lift (base_handleCamera self namespace) ;;
  let '(self, namespace) := base in
  defaultScale <- dict_get (_DefaultScale self) camera ;;
  defaultOverlap <- dict_get (_DefaultOverlap self) camera ;;
  let self := add_argument self
    (mkArgument "--scale" None type_float defaultScale (is_None defaultScale)
       "Pixel scale for skycell, in arcsec/pixel") in
  let self := add_argument self
    (mkArgument "--overlap" None type_float defaultOverlap (eq_None defaultScale)
       "Overlap between adjacent sky tracts, in deg") in
  ret (self, namespace).

(* the declaration of option [name] that argparse uses: the last one added *)
Definition find_argument (self : Parser) (name : string) : option Argument :=
  last (filter (fun a => arg_name a = name) (arguments self)).

(** *** What the base parser hands to [parse_args]

    The attributes argparse stores for the options declared above, given
    what the command line supplied: an option with [nargs=2] is a list of
    two converted items, an omitted option without default is [None];
    [--scale] and [--overlap] are floats (taken from the command line or
    from the camera tables). *)

Record Args : Type := mkArgs {
  args_fwhm : float;
  args_radec : option (float * float);
  args_tract : option Z;
  args_llc : option (Z * Z);
  args_size : option (Z * Z);
  args_projection : string;
  args_scale : float;
  args_overlap : float
}.

Definition pair_value {A} (f : A -> value) (o : option (A * A)) : value :=
  match o with
  | Some (a, b) => VList [f a; f b]
  | None => VNone
  end.

Definition base_namespace (rest : gmap string value) (a : Args)
  : gmap string value :=
  <["fwhm" := VFloat (args_fwhm a)]>
  (<["radec" := pair_value VFloat (args_radec a)]>
  (<["tract" := from_option VInt VNone (args_tract a)]>
  (<["llc" := pair_value VInt (args_llc a)]>
  (<["size" := pair_value VInt (args_size a)]>
  (<["projection" := VStr (args_projection a)]>
  (<["scale" := VFloat (args_scale a)]>
  (<["overlap" := VFloat (args_overlap a)]> rest))))))).

(** *** [parse_args] on the namespaces of the base parser

    The same steps as [parse_args], read off the typed command line
    instead of the attribute map; [parse_args_base_namespace] below proves
    that [parse_args] on [base_namespace rest a] is this computation. *)

Record Coadd : Type := mkCoadd {
  coadd_skyMap : SkyMap;
  coadd_radec : IcrsCoord;
  coadd_skyTractInfo : SkyTractInfo;
  coadd_wcs : Wcs;
  coadd_bbox : Box2I
}.

Definition icrs_of_degrees (p : float * float) : IcrsCoord :=
  IcrsCoord_new (Angle_new (fst p) degrees) (Angle_new (snd p) degrees).

Definition coadd_geometry (a : Args) : M Coadd :=
  let pixelScale := Angle_new (args_scale a) arcseconds in
  let overlap := Angle_new (args_overlap a) degrees in
  skyMap <- call (Call_SkyMap (args_projection a) pixelScale overlap)
                 (SkyMap_new (args_projection a) pixelScale overlap) ;;
  let radec := icrs_of_degrees <$> args_radec a in
  dimensions <-
    match args_size a with
    | Some (w, h) =>
        if in_int w && in_int h then ret (mkExtent2I w h) else raise OverflowError
    | None => raise TypeError
    end ;;
  tractId <-
    match args_tract a, radec with
    | Some t, _ => ret t
    | None, None => raise (RuntimeError "Must specify tract or radec")
    | None, Some c => call (Call_getSkyTractId skyMap c) (getSkyTractId skyMap c)
    end ;;
  info <- call (Call_getSkyTractInfo skyMap tractId) (getSkyTractInfo skyMap tractId) ;;
  wcs <- call (Call_getWcs info) (Ok (getWcs info)) ;;
  llcPixInd <-
    match args_llc a, radec with
    | Some (x, y), _ =>
        if in_int x && in_int y then ret (mkPoint2I x y) else raise OverflowError
    | None, None => raise (RuntimeError "Must specify llc or radec")
    | None, Some c =>
        ctrPixPos <- call (Call_skyToPixel wcs c) (skyToPixel wcs c) ;;
        ret (Point2I_sub (Point2I_of_Point2D ctrPixPos) (Extent2I_div dimensions 2))
    end ;;
  ctrCoord <-
    match radec with
    | Some c => ret c
    | None => call (Call_getCtrCoord info) (Ok (getCtrCoord info))
    end ;;
  ret (mkCoadd skyMap ctrCoord info wcs (Box2I_new llcPixInd dimensions)).

(* the six [del] statements *)
Definition strip (ns : gmap string value) : gmap string value :=
  delete "tract" (delete "overlap" (delete "projection"
    (delete "scale" (delete "size" (delete "llc" ns))))).

(* the namespace [parse_args] returns for the geometry [c] *)
Definition coadd_namespace (rest : gmap string value) (a : Args) (c : Coadd)
  : gmap string value :=
  let ns := setattr (base_namespace rest a) "skyMap" (VSkyMap (coadd_skyMap c)) in
  let geometry ns :=
    setattr
      (setattr
         (setattr ns "skyTractInfo" (VTractInfo (coadd_skyTractInfo c)))
         "wcs" (VWcs (coadd_wcs c)))
      "bbox" (VBox (coadd_bbox c)) in
  match args_radec a with
  | Some _ => strip (geometry (setattr ns "radec" (VCoord (coadd_radec c))))
  | None => strip (setattr (geometry ns) "radec" (VCoord (coadd_radec c)))
  end.

(** *** Reading the call log and the command line *)

Definition is_getSkyTractId (c : Call) : bool :=
  match c with Call_getSkyTractId _ _ => true | _ => false end.

Definition is_skyToPixel (c : Call) : bool :=
  match c with Call_skyToPixel _ _ => true | _ => false end.

(* the sky coordinate a call receives, if it takes one *)
Definition coord_arg (c : Call) : option IcrsCoord :=
  match c with
  | Call_getSkyTractId _ x | Call_skyToPixel _ x => Some x
  | _ => None
  end.


(* both integers of an option fit a C++ [int]; vacuous when it is omitted *)
Definition fits_int (o : option (Z * Z)) : Prop :=
  forall x y, o = Some (x, y) -> in_int x = true /\ in_int y = true.


End WithFramework.
End CoaddArgumentParser.

(** ** A small framework instance

    One projection plane for the whole sky, cut into twelve tracts (ids 0 to
    11) of 1000 by 1000 pixels laid side by side; a sky position lands on
    the pixel given by the whole parts of its angles in milliradians.  An
    unknown tract id is an [IndexError].  Used to run [parse_args] on
    concrete command lines. *)

Module PlaneSky.

Definition whole (x : float) : Z :=
  match Prim2SF x with
  | S754_finite s m e =>
      let v := Z.shiftl (Z.pos m) e in if s then - v else v
  | _ => 0
  end.

Definition milliradians (a : Angle) : Z := whole (asRadians a * 1000)%float.

Definition coord : Type := Angle * Angle.

Definition tractOf (c : coord) : Z := milliradians (fst c) `mod` 12.

#[export] Instance framework : Afw := {|
  IcrsCoord := coord;
  Point2D := Z * Z;
  Wcs := Z;
  SkyMap := string;
  SkyTractInfo := Z;
  IcrsCoord_new ra dec := (ra, dec);
  Point2I_of_Point2D p := mkPoint2I (fst p) (snd p);
  SkyMap_new projection _ _ := Ok projection;
  getSkyTractId _ c := Ok (tractOf c);
  getSkyTractInfo _ tractId :=
    if (0 <=? tractId) && (tractId <? 12) then Ok tractId else Raise IndexError;
  getWcs t := t;
  getCtrCoord t := (mkAngle 0, mkAngle 0);
  skyToPixel w c := Ok (1000 * w + milliradians (fst c), milliradians (snd c))
|}.

End PlaneSky.

(** ** Concrete command lines, run on [PlaneSky] *)

Module CoaddExamples.
Import CoaddArgumentParser PlaneSky.

(* --radec 10.5 20.25 --size 101 51 *)
Definition args_radec_only : Args :=
  mkArgs 0%float (Some (10.5%float, 20.25%float)) None None (Some (101, 51))
         "STG" 0.14%float 3.5%float.

(* --tract 4 --llc 5 6 --size 101 51 *)
Definition args_tract_llc : Args :=
  mkArgs 0%float None (Some 4) (Some (5, 6)) (Some (101, 51))
         "STG" 0.14%float 3.5%float.


Definition outcome (a : Args) : result (gmap string value) * list Call :=
  run (parse_args (base_namespace ∅ a)).

Definition returned (a : Args) : gmap string value :=
  match fst (outcome a) with
  | Ok ns => ns
  | Raise _ => ∅
  end.

Definition raised (a : Args) : option exn :=
  match fst (outcome a) with
  | Ok _ => None
  | Raise e => Some e
  end.

(* the bounding box of the returned namespace, as
   (corner x, corner y, width, height) *)
Definition returned_bbox (a : Args) : option (Z * Z * Z * Z) :=
  match returned a !! "bbox" with
  | Some (VBox b) =>
      Some (pt_x (box_min b), pt_y (box_min b),
            ext_x (box_dims b), ext_y (box_dims b))
  | _ => None
  end.

(* a subclass adding a default scale, and no default overlap, for hscSim *)
Definition hsc_parser : Parser :=
  let self := __init__ [] in
  mkParser (<["hscSim" := 0.17%float]> (_DefaultScale self))
           (_DefaultOverlap self) (arguments self).

Definition hsc_namespace : gmap string value := {["camera" := VStr "hscSim"]}.

(* a base [handleCamera] that does nothing *)
Definition base_pass (self : Parser) (namespace : gmap string value)
  : result (Parser * gmap string value) := Ok (self, namespace).

Definition hsc_handled : result (Parser * gmap string value) * list Call :=
  handleCamera base_pass hsc_parser hsc_namespace [].

Definition hsc_handled_parser : Parser :=
  match fst hsc_handled with
  | Ok (self, _) => self
  | Raise _ => hsc_parser
  end.

(* required flag and default of the option as declared after handleCamera;
   the default is shown as [Some x] for a float and [None] for [None] *)
Definition declared (self : Parser) (name : string) : option (bool * option float) :=
  match find_argument self name with
  | Some a => Some (arg_required a,
                    match arg_default a with VFloat x => Some x | _ => None end)
  | None => None
  end.

End CoaddExamples.

(** ** [qaTimeout.py]

    Time is counted in whole seconds of the process alarm clock.  The
    process has one SIGALRM disposition and one alarm.  [signal.signal] may
    only be called from the main thread.  [signal.alarm(t)] takes a C [int]
    and hands it to [alarm(unsigned)]: it replaces the pending alarm by one
    due in [t] seconds, [t = 0] only cancels, and a [t] that does not fit a
    C [int] is an [OverflowError].

    The call of the wrapped function is any function from the signal state
    it starts in to the way it ends, so it may set alarms and handlers of
    its own.  [run_func] gives the calls of the functions that leave the
    signal state alone: such a function is described by how long it runs
    and how it ends when no signal reaches it, and by what it does from the
    moment a handler raises an exception in it (let it propagate, or catch
    it and go on). *)

Module QaTimeout.
Section Decorator.
Variables Params Value : Type.

Definition SIGALRM : Z := 14.

(* what is installed for SIGALRM: the default action or a Python callable
   [handler(signalNumber, frame)] *)
Inductive Handler : Type :=
| SIG_DFL
| PyHandler (h : Z -> result unit).

Record SignalState : Type := mkSignalState {
  main_thread : bool;         (* is the caller the interpreter's main thread *)
  sigalrm_handler : Handler;
  alarm_remaining : N         (* seconds until SIGALRM; 0: no alarm pending *)
}.

(* [signal.signal(SIGALRM, handler)]: only the main thread may call it *)
Definition signal_signal (h : Handler) (st : SignalState)
  : result SignalState :=
  if main_thread st
  then Ok (mkSignalState (main_thread st) h (alarm_remaining st))
  else Raise ValueError.

(* the seconds [alarm(unsigned)] is given for the C [int] [t] *)
Definition alarm_seconds (t : Z) : N := Z.to_N (t `mod` 2 ^ 32).

(* [signal.alarm(t)]: returns the seconds that were left *)
Definition signal_alarm (t : Z) (st : SignalState)
  : result (N * SignalState) :=
  if in_int t
  then Ok (alarm_remaining st,
           mkSignalState (main_thread st) (sigalrm_handler st) (alarm_seconds t))
  else Raise OverflowError.

Inductive Behaviour : Type :=
| Finishes (elapsed : N) (r : result Value)
| Hangs.

Record Function : Type := mkFunction {
  (* its run when no signal reaches it *)
  alone : Behaviour;
  (* the rest of its run from the moment a handler raises [e] in it *)
  interrupted : exn -> Behaviour
}.

(* a function that catches nothing *)
Definition propagating (b : Behaviour) : Function :=
  mkFunction b (fun e => Finishes 0 (Raise e)).

Inductive Outcome : Type :=
| Returned (r : result Value) (st : SignalState)
| Diverges
| Killed.

Definition Body : Type := SignalState -> Outcome.

(* does an alarm due in [t] seconds go off while the function runs *)
Definition fires (t : N) (b : Behaviour) : bool :=
  match b with
  | Finishes elapsed _ => (0 <? t)%N && (t <=? elapsed)%N
  | Hangs => (0 <? t)%N
  end.

Definition undisturbed (b : Behaviour) (st : SignalState) : Outcome :=
  match b with
  | Finishes elapsed r =>
      Returned r (mkSignalState (main_thread st) (sigalrm_handler st)
                                (alarm_remaining st - elapsed)%N)
  | Hangs => Diverges
  end.

(* the call of a function that leaves the signal state alone, in a process
   whose signal state is [st] *)
Definition run_func (f : Function) : Body :=
  fun st =>
    if fires (alarm_remaining st) (alone f) then
      let spent := mkSignalState (main_thread st) (sigalrm_handler st) 0 in
      match sigalrm_handler st with
      | SIG_DFL => Killed
      | PyHandler h =>
          match h SIGALRM with
          | Raise e => undisturbed (interrupted f e) spent
          | Ok _ => undisturbed (alone f) spent
          end
      end
    else undisturbed (alone f) st.

Definition timed (func : Params -> Function) : Params -> Body :=
  fun args => run_func (func args).

Definition _timeoutHandler (errMsg : string) (signalNumber : Z) : result unit :=
  Raise (TimeoutError errMsg).

Definition wrapper (timeout : Z) (errMsg : string)
    (func : Params -> Body) (args : Params) (st : SignalState)
  : Outcome :=
  match signal_signal (PyHandler (_timeoutHandler errMsg)) st with
  | Raise e => Returned (Raise e) st
  | Ok st =>
      match signal_alarm timeout st with
      | Raise e => Returned (Raise e) st
      | Ok (_, st) =>
          (* try: result = func( *args, **kwargs)   finally: signal.alarm(0) *)
          match func args st with
          | Returned result st =>
              match signal_alarm 0 st with
              | Ok (_, st) => Returned result st
              | Raise e => Returned (Raise e) st
              end
          | Diverges => Diverges
          | Killed => Killed
          end
      end
  end.

(* [qaTimeout(timeout, errMsg)(func)] *)
Definition qaTimeout (timeout : Z) (errMsg : string)
    (func : Params -> Body) : Params -> Body :=
  wrapper timeout errMsg func.

Definition default_timeout : Z := 60.

End Decorator.

Arguments Finishes {Value} elapsed r.
Arguments Hangs {Value}.
Arguments mkFunction {Value} alone interrupted.
Arguments alone {Value} f.
Arguments interrupted {Value} f e.
Arguments propagating {Value} b.
Arguments Returned {Value} r st.
Arguments Diverges {Value}.
Arguments Killed {Value}.
Arguments fires {Value} t b.
Arguments undisturbed {Value} b st.
Arguments run_func {Value} f st.
Arguments timed {Params Value} func args st.
Arguments wrapper {Params Value} timeout errMsg func args st.
Arguments qaTimeout {Params Value} timeout errMsg func _ _.

(* a process in its main thread, default disposition, no alarm pending *)
Definition idle : SignalState := mkSignalState true SIG_DFL 0.

(* the signal state every exit through the [finally] clause leaves *)
Definition disarmed (errMsg : string) : SignalState :=
  mkSignalState true (PyHandler (_timeoutHandler errMsg)) 0.

(* the signal state after the wrapper's [signal.signal] *)
Definition installed (errMsg : string) (st : SignalState) : SignalState :=
  mkSignalState (main_thread st) (PyHandler (_timeoutHandler errMsg))
                (alarm_remaining st).

(* the signal state the wrapped function is called in *)
Definition armed (timeout : Z) (errMsg : string) (st : SignalState) : SignalState :=
  mkSignalState (main_thread st) (PyHandler (_timeoutHandler errMsg))
                (alarm_seconds timeout).

(* a function that takes five seconds and returns 42 *)
Definition five_seconds (_ : unit) : Function Z := propagating (Finishes 5 (Ok 42)).

(* a function that fails after two seconds *)
Definition failing (_ : unit) : Function Z :=
  propagating (Finishes 2 (Raise IndexError)).

End QaTimeout.

(** ** [fakes.py]

    Python passes object references: the task and its three arguments are
    addresses into a heap of objects, and a method returns its value
    together with the heap it leaves. *)

Module Fakes.
Section Task.
Variable Obj : Type.

Inductive pyvalue : Type :=
| PyNone
| PyRef (addr : nat).

(* [FakeSourcesTask.run]: the body is [pass] *)
Definition run (self exposure sources background : nat) (heap : gmap nat Obj)
  : pyvalue * gmap nat Obj :=
  (PyNone, heap).

End Task.
End Fakes.

(** ** Further readings of [parse_args]: its framework calls and errors *)

Module CoaddCalls.
Import CoaddArgumentParser.
Section WithFramework.
Context {F : Afw}.

(* the arguments [parse_args] constructs the sky map from *)
Definition pixelScale_of (a : Args) : Angle := Angle_new (args_scale a) arcseconds.
Definition overlap_of (a : Args) : Angle := Angle_new (args_overlap a) degrees.

Definition skyMap_call (a : Args) : Call :=
  Call_SkyMap (args_projection a) (pixelScale_of a) (overlap_of a).

Definition skyMap_of (a : Args) : result SkyMap :=
  SkyMap_new (args_projection a) (pixelScale_of a) (overlap_of a).

(* the calls of a run that returns, given the sky map, tract id and tract
   it went through *)
Definition calls_of (a : Args) (skyMap : SkyMap) (tractId : Z) (info : SkyTractInfo)
  : list Call :=
  [skyMap_call a]
  ++ match args_tract a, args_radec a with
     | None, Some p => [Call_getSkyTractId skyMap (icrs_of_degrees p)]
     | _, _ => []
     end
  ++ [Call_getSkyTractInfo skyMap tractId; Call_getWcs info]
  ++ match args_llc a, args_radec a with
     | None, Some p => [Call_skyToPixel (getWcs info) (icrs_of_degrees p)]
     | _, _ => []
     end
  ++ match args_radec a with
     | None => [Call_getCtrCoord info]
     | Some _ => []
     end.

(* the attributes [parse_args] sets or deletes *)
Definition touched : list string :=
  ["skyMap"; "radec"; "skyTractInfo"; "wcs"; "bbox";
   "llc"; "size"; "scale"; "projection"; "overlap"; "tract"].

End WithFramework.
End CoaddCalls.

Module MoreExamples.
Import CoaddArgumentParser PlaneSky CoaddExamples.

(* the WCS of the returned namespace *)
Definition returned_wcs (a : Args) : option Z :=
  match returned a !! "wcs" with
  | Some (VWcs w) => Some w
  | _ => None
  end.

(* --llc 5 6 --size 101 51: neither --tract nor --radec *)
Definition args_llc_only : Args :=
  mkArgs 0%float None None (Some (5, 6)) (Some (101, 51))
         "STG" 0.14%float 3.5%float.

(* --tract 4 --size 101 51: neither --llc nor --radec *)
Definition args_tract_only : Args :=
  mkArgs 0%float None (Some 4) None (Some (101, 51))
         "STG" 0.14%float 3.5%float.

(* what the base parser leaves for a camera with a default scale and no
   default overlap when --overlap is not given *)
Definition namespace_overlap_None : gmap string value :=
  <["overlap" := VNone]> (base_namespace ∅ args_tract_llc).

(* the class's parser for a camera it has defaults for *)
Definition lsstSim_namespace : gmap string value := {["camera" := VStr "lsstSim"]}.

Definition lsstSim_handled_parser : Parser :=
  match fst (handleCamera base_pass (__init__ []) lsstSim_namespace []) with
  | Ok (self, _) => self
  | Raise _ => __init__ []
  end.




(* --radec 10.5 20.25 --size -4 6: a negative width *)
Definition args_radec_negative_size : Args :=
  mkArgs 0%float (Some (10.5%float, 20.25%float)) None None (Some (-4, 6))
         "STG" 0.14%float 3.5%float.


(* a process with a handler of its own and an alarm due in 30 seconds *)
Definition busy : QaTimeout.SignalState :=
  QaTimeout.mkSignalState true (QaTimeout.PyHandler (fun _ => Ok tt)) 30.

(* the same process seen from another thread than the main one *)
Definition busy_thread : QaTimeout.SignalState :=
  QaTimeout.mkSignalState false (QaTimeout.PyHandler (fun _ => Ok tt)) 30.

(* a thread other than the main one, nothing pending *)
Definition other_thread : QaTimeout.SignalState :=
  QaTimeout.mkSignalState false QaTimeout.SIG_DFL 0.

(* a function that never returns *)
Definition hanging (_ : unit) : QaTimeout.Function Z :=
  QaTimeout.propagating QaTimeout.Hangs.

(* a function that would take five seconds and return 42, and that catches
   whatever is raised in it, to return 7 four seconds later *)
Definition stubborn (_ : unit) : QaTimeout.Function Z :=
  QaTimeout.mkFunction (QaTimeout.Finishes 5 (Ok 42))
                       (fun _ => QaTimeout.Finishes 4 (Ok 7)).

(* a function that catches whatever is raised in it and then never returns *)
Definition deaf (_ : unit) : QaTimeout.Function Z :=
  QaTimeout.mkFunction QaTimeout.Hangs (fun _ => QaTimeout.Hangs).

End MoreExamples.


(** * Proofs *)

Module CoaddProofs.
Import CoaddArgumentParser.

Section Monad.
Context {F : Afw}.

Lemma bind_ret {A B} (a : A) (k : A -> M B) log : bind (ret a) k log = k a log.
Proof. reflexivity. Qed.

Lemma bind_raise {A B} e (k : A -> M B) log :
  bind (raise e) k log = (Raise e, log).
Proof. reflexivity. Qed.

Lemma bind_bind {A B C} (m : M A) (k : A -> M B) (k' : B -> M C) log :
  bind (bind m k) k' log = bind m (fun a => bind (k a) k') log.
Proof. unfold bind. destruct (m log) as [[a|e] log']; reflexivity. Qed.

Lemma bind_call {A B} c (r : result A) (k : A -> M B) log :
  bind (call c r) k log =
  match r with
  | Ok a => k a (log ++ [c])
  | Raise e => (Raise e, log ++ [c])
  end.
Proof. unfold bind, call. destruct r; reflexivity. Qed.

Lemma bind_getattr {B} (obj : gmap string value) name v (k : value -> M B) log :
  obj !! name = Some v -> bind (getattr obj name) k log = k v log.
Proof. intros H. unfold bind, getattr. rewrite H. reflexivity. Qed.

Lemma bind_delattr {B} (obj : gmap string value) name v
    (k : gmap string value -> M B) log :
  obj !! name = Some v -> bind (delattr obj name) k log = k (delete name obj) log.
Proof. intros H. unfold bind, delattr. rewrite H. reflexivity. Qed.
End Monad.

(* a lookup of a constant attribute name in a stack of inserts and deletes *)
Ltac lookup_const :=
  unfold setattr, base_namespace;
  repeat first
    [ rewrite lookup_insert_eq
    | rewrite lookup_delete_eq
    | rewrite lookup_insert_ne by discriminate
    | rewrite lookup_delete_ne by discriminate ];
  try reflexivity.

Ltac simpl_py :=
  cbv beta;
  cbn [call_Angle call_Extent2I call_Point2I call_SkyMap call_getSkyTractId
       call_getSkyTractInfo call_getWcs call_getCtrCoord call_skyToPixel
       getitem iter comprehension list_getitem ne_None eq_None is_None negb
       pair_value from_option lookup list_lookup
       fmap option_fmap option_map fst snd
       args_fwhm args_radec args_tract args_llc args_size args_projection
       args_scale args_overlap].

(* run the statement at the head of the computation *)
Ltac exec_step :=
  first
    [ rewrite bind_ret
    | rewrite bind_raise
    | rewrite bind_bind
    | rewrite bind_call
    | erewrite bind_getattr by lookup_const
    | erewrite bind_delattr by lookup_const ];
  simpl_py.

Ltac exec := simpl_py; repeat exec_step.

(* run, splitting on each omitted-or-supplied option and on the outcome of
   each framework call as the computation reaches it *)
Ltac split_cases :=
  exec; try reflexivity;
  lazymatch goal with
  | |- context [pair_value _ ?o] => destruct o as [[? ?]|]; split_cases
  | |- context [from_option _ _ ?o] => destruct o; split_cases
  | |- context [if in_int ?a && in_int ?b then _ else _] =>
      destruct (in_int a && in_int b); split_cases
  | |- context [match ?r with Ok _ => _ | Raise _ => _ end] =>
      destruct r; split_cases
  | _ => idtac
  end.

Ltac split_calls_eqn :=
  exec;
  lazymatch goal with
  | |- context [if in_int ?a && in_int ?b then _ else _] =>
      destruct (in_int a && in_int b) eqn:?; split_calls_eqn
  | |- context [match ?r with Ok _ => _ | Raise _ => _ end] =>
      destruct r eqn:?; split_calls_eqn
  | _ => idtac
  end.

Ltac start_geometry a :=
  unfold coadd_geometry;
  destruct a as [fwhm [[ra' dec']|] [t|] [[x y]|] [[w h]|] projection scale overlap];
  split_calls_eqn; unfold ret, raise.


Ltac does_fit Hfit :=
  destruct (Hfit _ _ eq_refl) as [Ha Hb];
  match goal with
  | H : in_int _ && in_int _ = false |- _ => rewrite Ha, Hb in H; discriminate H
  end.

Section Claims.
Context {F : Afw}.

(** [parse_args] on a namespace of the base parser is [coadd_geometry]. *)
Theorem parse_args_base_namespace rest a log :
  parse_args (base_namespace rest a) log =
  match coadd_geometry a log with
  | (Ok c, log') => (Ok (coadd_namespace rest a c), log')
  | (Raise e, log') => (Raise e, log')
  end.
Proof.
  destruct a as [fwhm radec tract llc size projection scale overlap];
    unfold parse_args, coadd_geometry, coadd_namespace, icrs_of_degrees.
  split_cases.
Qed.

Lemma coadd_geometry_Ok a log0 c log :
  coadd_geometry a log0 = (Ok c, log) ->
  exists w h tractId llcPixInd,
    args_size a = Some (w, h) /\
    in_int w && in_int h = true /\
    SkyMap_new (args_projection a) (Angle_new (args_scale a) arcseconds)
               (Angle_new (args_overlap a) degrees) = Ok (coadd_skyMap c) /\
    match args_tract a with
    | Some t => tractId = t
    | None => exists radec, args_radec a = Some radec /\
        getSkyTractId (coadd_skyMap c) (icrs_of_degrees radec) = Ok tractId
    end /\
    getSkyTractInfo (coadd_skyMap c) tractId = Ok (coadd_skyTractInfo c) /\
    coadd_wcs c = getWcs (coadd_skyTractInfo c) /\
    match args_llc a with
    | Some (x, y) => llcPixInd = mkPoint2I x y /\ in_int x && in_int y = true
    | None => exists radec ctrPixPos, args_radec a = Some radec /\
        skyToPixel (coadd_wcs c) (icrs_of_degrees radec) = Ok ctrPixPos /\
        llcPixInd = Point2I_sub (Point2I_of_Point2D ctrPixPos)
                                (Extent2I_div (mkExtent2I w h) 2)
    end /\
    coadd_bbox c = Box2I_new llcPixInd (mkExtent2I w h) /\
    coadd_radec c = match args_radec a with
                    | Some radec => icrs_of_degrees radec
                    | None => getCtrCoord (coadd_skyTractInfo c)
                    end.
Proof.
  start_geometry a; intros [= <- <-]; cbn.
  all: try (eexists _, _, _, _; repeat split; eauto; fail).
Qed.

(** Which calls a run logs, whatever its outcome. *)
Lemma coadd_geometry_log a log0 r log :
  coadd_geometry a log0 = (r, log) ->
  exists calls,
    log = log0 ++ calls /\
    (is_Some (args_tract a) -> Forall (fun c => is_getSkyTractId c = false) calls) /\
    (is_Some (args_llc a) -> Forall (fun c => is_skyToPixel c = false) calls) /\
    (forall radec, args_radec a = Some radec ->
       Forall (fun c => forall x, coord_arg c = Some x -> x = icrs_of_degrees radec) calls).
Proof.
  start_geometry a; intros [= <- <-].
  all: rewrite <- ?app_assoc; cbn [app].
  all: eexists; split; [reflexivity|].
  all: split_and!; [intros [? [=]] || intros _ .. | intros ? [=]; subst].
  all: repeat constructor; cbn; congruence.
Qed.

Lemma coadd_namespace_absent rest a c name :
  name ∈ ["llc"; "size"; "scale"; "projection"; "overlap"; "tract"] ->
  coadd_namespace rest a c !! name = None.
Proof.
  intros H. unfold coadd_namespace, strip.
  repeat (apply elem_of_cons in H as [->|H]; [destruct (args_radec a); lookup_const|]).
  by apply elem_of_nil in H.
Qed.

Lemma coadd_namespace_present rest a c :
  coadd_namespace rest a c !! "radec" = Some (VCoord (coadd_radec c)) /\
  coadd_namespace rest a c !! "bbox" = Some (VBox (coadd_bbox c)) /\
  coadd_namespace rest a c !! "wcs" = Some (VWcs (coadd_wcs c)) /\
  coadd_namespace rest a c !! "skyMap" = Some (VSkyMap (coadd_skyMap c)) /\
  coadd_namespace rest a c !! "skyTractInfo" = Some (VTractInfo (coadd_skyTractInfo c)).
Proof.
  unfold coadd_namespace, strip. destruct (args_radec a); split_and!; lookup_const.
Qed.

(** A successful [parse_args] is a successful [coadd_geometry]. *)
Lemma parse_args_Ok rest a log0 ns log :
  parse_args (base_namespace rest a) log0 = (Ok ns, log) ->
  exists c, coadd_geometry a log0 = (Ok c, log) /\ ns = coadd_namespace rest a c.
Proof.
  rewrite parse_args_base_namespace.
  destruct (coadd_geometry a log0) as [[c|e] log']; intros [= <- <-]; eauto.
Qed.

Lemma parse_args_log rest a log0 r log :
  parse_args (base_namespace rest a) log0 = (r, log) ->
  exists r', coadd_geometry a log0 = (r', log).
Proof.
  rewrite parse_args_base_namespace.
  destruct (coadd_geometry a log0) as [[c|e] log']; intros [= <- <-]; eauto.
Qed.

(** ** 32-bit integers and boxes *)

Lemma in_int_spec z : in_int z = true <-> - 2 ^ 31 <= z < 2 ^ 31.
Proof. unfold in_int. rewrite andb_true_iff, Z.leb_le, Z.ltb_lt. tauto. Qed.

Lemma in_int_pair a b :
  in_int a && in_int b = true -> in_int a = true /\ in_int b = true.
Proof. apply andb_true_iff. Qed.

Lemma wrap32_id z : in_int z = true -> wrap32 z = z.
Proof.
  rewrite in_int_spec. intros Hz. unfold wrap32.
  rewrite Z.mod_small by lia. lia.
Qed.

Lemma half_in_int z : in_int z = true -> in_int (z ÷ 2) = true.
Proof.
  rewrite !in_int_spec. intros Hz.
  destruct (Z.le_gt_cases 0 z) as [Hpos|Hneg].
  - rewrite Z.quot_div_nonneg by lia.
    pose proof (Z.div_pos z 2). pose proof (Z.div_le_upper_bound z 2 z). lia.
  - pose proof (Z.quot_opp_l z 2). pose proof (Z.quot_div_nonneg (- z) 2).
    pose proof (Z.div_pos (- z) 2). pose proof (Z.div_le_upper_bound (- z) 2 (- z)).
    lia.
Qed.

(* a box of positive dimensions is stored as given *)
Lemma Box2I_new_positive p e :
  0 < ext_x e -> 0 < ext_y e -> Box2I_new p e = mkBox2I p e.
Proof.
  intros Hx Hy. unfold Box2I_new, Box2I_axis.
  destruct (Z.eqb_spec (ext_x e) 0); [lia|].
  destruct (Z.eqb_spec (ext_y e) 0); [lia|].
  destruct (Z.ltb_spec (ext_x e) 0); [lia|].
  destruct (Z.ltb_spec (ext_y e) 0); [lia|].
  by destruct p, e.
Qed.

(** C1 (as amended): with [--llc] omitted, [--radec] supplied and a
    positive [--size], the bounding box of a returned namespace has the
    requested size as its dimensions and, as its lower-left corner, the
    integer pixel index of [wcs.skyToPixel(radec)] minus half the size,
    componentwise, the subtraction being that of C++ [int]s. *)
Theorem bbox_centered_on_radec rest a ra dec sx sy log0 ns log :
  args_llc a = None ->
  args_radec a = Some (ra, dec) ->
  args_size a = Some (sx, sy) ->
  0 < sx -> 0 < sy ->
  parse_args (base_namespace rest a) log0 = (Ok ns, log) ->
  exists wcs ctrPixPos bbox,
    ns !! "wcs" = Some (VWcs wcs) /\
    skyToPixel wcs (IcrsCoord_new (Angle_new ra degrees) (Angle_new dec degrees))
      = Ok ctrPixPos /\
    ns !! "bbox" = Some (VBox bbox) /\
    box_min bbox
      = mkPoint2I (wrap32 (pt_x (Point2I_of_Point2D ctrPixPos) - sx ÷ 2))
                  (wrap32 (pt_y (Point2I_of_Point2D ctrPixPos) - sy ÷ 2)) /\
    box_dims bbox = mkExtent2I sx sy.
Proof.
  intros Hllc Hradec Hsize Hx Hy Hrun.
  apply parse_args_Ok in Hrun as (c & Hgeo & ->).
  apply coadd_geometry_Ok in Hgeo
    as (w' & h' & tractId & llcPixInd & Hsz & Hfit & _ & _ & _ & Hwcs & Hcorner
        & Hbox & _).
  rewrite Hsize in Hsz. injection Hsz as <- <-.
  apply in_int_pair in Hfit as [Hfx Hfy].
  rewrite Hllc in Hcorner. destruct Hcorner as (radec & ctrPixPos & Hr & Hpix & ->).
  rewrite Hradec in Hr. injection Hr as <-.
  destruct (coadd_namespace_present rest a c) as (_ & Hb & Hw & _).
  exists (coadd_wcs c), ctrPixPos, (coadd_bbox c). split_and!; try done.
  - rewrite Hbox, Box2I_new_positive by done.
    unfold Point2I_sub, Extent2I_div. cbn [box_min pt_x pt_y ext_x ext_y].
    by rewrite (wrap32_id (sx ÷ 2)), (wrap32_id (sy ÷ 2)) by by apply half_in_int.
  - by rewrite Hbox, Box2I_new_positive by done.
Qed.

(** C3: the tract of a returned namespace is [skyMap.getSkyTractInfo] of
    the id [skyMap.getSkyTractId(radec)] when [--tract] is omitted, and of
    the given id when [--tract] is supplied; in the latter case no run,
    successful or not, calls [getSkyTractId]. *)
Theorem tract_selection rest a r log :
  run (parse_args (base_namespace rest a)) = (r, log) ->
  (forall t, args_tract a = Some t ->
     Forall (fun c => is_getSkyTractId c = false) log) /\
  (forall ns, r = Ok ns ->
     exists skyMap info,
       ns !! "skyMap" = Some (VSkyMap skyMap) /\
       ns !! "skyTractInfo" = Some (VTractInfo info) /\
       match args_tract a with
       | Some t => getSkyTractInfo skyMap t = Ok info
       | None =>
           exists ra dec tractId,
             args_radec a = Some (ra, dec) /\
             getSkyTractId skyMap
               (IcrsCoord_new (Angle_new ra degrees) (Angle_new dec degrees))
               = Ok tractId /\
             getSkyTractInfo skyMap tractId = Ok info
       end).
Proof.
  unfold run. intros Hrun. split.
  - intros t Ht. apply parse_args_log in Hrun as [r' Hgeo].
    apply coadd_geometry_log in Hgeo as (calls & -> & Hid & _).
    apply Hid. rewrite Ht. by eexists.
  - intros ns ->. apply parse_args_Ok in Hrun as (c & Hgeo & ->).
    apply coadd_geometry_Ok in Hgeo
      as (w & h & tractId & llcPixInd & _ & _ & _ & Htract & Hinfo & _).
    destruct (coadd_namespace_present rest a c) as (_ & _ & _ & Hm & Hi).
    exists (coadd_skyMap c), (coadd_skyTractInfo c). split_and!; try done.
    destruct (args_tract a) as [t|].
    + by subst.
    + destruct Htract as ([ra dec] & Hr & Hid). by exists ra, dec, tractId.
Qed.



(** C6: a returned namespace has no attribute [llc], [size], [scale],
    [projection], [overlap] or [tract]; it has [radec], [bbox], [wcs],
    [skyMap] and [skyTractInfo], each holding a framework object; and when
    [--radec] was omitted, [radec] is the centre coordinate of the tract. *)
Theorem returned_namespace_attributes rest a log0 ns log :
  parse_args (base_namespace rest a) log0 = (Ok ns, log) ->
  (forall name,
     name ∈ ["llc"; "size"; "scale"; "projection"; "overlap"; "tract"] ->
     ns !! name = None) /\
  (exists radec bbox wcs skyMap info,
     ns !! "radec" = Some (VCoord radec) /\
     ns !! "bbox" = Some (VBox bbox) /\
     ns !! "wcs" = Some (VWcs wcs) /\
     ns !! "skyMap" = Some (VSkyMap skyMap) /\
     ns !! "skyTractInfo" = Some (VTractInfo info) /\
     (args_radec a = None -> radec = getCtrCoord info)).
Proof.
  intros Hrun. apply parse_args_Ok in Hrun as (c & Hgeo & ->). split.
  - intros name. apply coadd_namespace_absent.
  - apply coadd_geometry_Ok in Hgeo
      as (w & h & tractId & llcPixInd & _ & _ & _ & _ & _ & _ & _ & _ & Hr).
    destruct (coadd_namespace_present rest a c) as (H1 & H2 & H3 & H4 & H5).
    exists (coadd_radec c), (coadd_bbox c), (coadd_wcs c), (coadd_skyMap c),
      (coadd_skyTractInfo c).
    split_and!; try done. intros Hnone. by rewrite Hnone in Hr.
Qed.



(** C7: after [handleCamera], the [--overlap] option is required exactly
    when the camera has no entry in [_DefaultScale]; its default is the
    camera's entry in [_DefaultOverlap], or [None]; so a camera with a
    default scale and no default overlap gets an optional [--overlap]
    whose default is [None]. *)
Theorem overlap_required_iff_no_default_scale
    base_handleCamera self namespace camera log0 self' namespace' log :
  namespace !! "camera" = Some (VStr camera) ->
  handleCamera base_handleCamera self namespace log0
    = (Ok (self', namespace'), log) ->
  exists based overlapArg,
    base_handleCamera self namespace = Ok (based, namespace') /\
    find_argument self' "--overlap" = Some overlapArg /\
    (arg_required overlapArg = true <-> _DefaultScale based !! camera = None) /\
    arg_default overlapArg
      = from_option VFloat VNone (_DefaultOverlap based !! camera) /\
    (is_Some (_DefaultScale based !! camera) ->
     _DefaultOverlap based !! camera = None ->
     arg_required overlapArg = false /\ arg_default overlapArg = VNone).
Proof.
  intros Hcamera. unfold handleCamera.
  rewrite (bind_getattr _ _ _ _ _ Hcamera).
  unfold lift, bind at 1.
  destruct (base_handleCamera self namespace) as [[based ns1]|e]; [|done].
  cbn [dict_get]. rewrite !bind_ret. unfold ret. intros [= <- <- <-].
  eexists based, _. split; [done|]. split.
  { unfold find_argument, add_argument; cbn [arguments].
    rewrite !filter_app, !filter_cons, filter_nil; cbn [arg_name].
    rewrite decide_False by discriminate. rewrite decide_True by done.
    rewrite app_nil_r. apply last_snoc. }
  cbn [arg_required arg_default].
  destruct (_DefaultScale based !! camera) as [s|],
           (_DefaultOverlap based !! camera) as [o|]; cbn.
  all: split_and!; try done; try (split; done); try (intros [? [=]]; done).
  all: try (intros; split; done).
Qed.

End Claims.
(** ** The claims on concrete command lines *)

Section Examples.
Import CoaddExamples MoreExamples PlaneSky.

Lemma outcome_pair a :
  run (parse_args (base_namespace ∅ a)) = (fst (outcome a), snd (outcome a)).
Proof. unfold outcome. by destruct (run _). Qed.

Lemma outcome_returned a :
  raised a = None ->
  parse_args (base_namespace ∅ a) [] = (Ok (returned a), snd (outcome a)).
Proof.
  unfold raised, returned, outcome, run.
  destruct (parse_args (base_namespace ∅ a) []) as [[ns|e] log]; cbn; congruence.
Qed.


Example radec_only_returns : raised args_radec_only = None.
Proof. vm_compute. reflexivity. Qed.

Example tract_llc_returns : raised args_tract_llc = None.
Proof. vm_compute. reflexivity. Qed.

(* 10.5 deg is 183 mrad and lands in tract 3, whose pixels start at
   x = 3000; 20.25 deg is 353 mrad *)
Example radec_only_bbox :
  returned_bbox args_radec_only = Some (3183 - 50, 353 - 25, 101, 51).
Proof. vm_compute. reflexivity. Qed.

Example tract_llc_bbox : returned_bbox args_tract_llc = Some (5, 6, 101, 51).
Proof. vm_compute. reflexivity. Qed.


Example radec_negative_size_returns : raised args_radec_negative_size = None.
Proof. vm_compute. reflexivity. Qed.

(* a width of -4 is halved to -2 and then flipped by the box constructor *)
Example radec_negative_size_bbox :
  returned_bbox args_radec_negative_size = Some (3183 + 2 - 3, 353 - 3, 4, 6).
Proof. vm_compute. reflexivity. Qed.






(* the four numbers of a box found under [bbox] *)
Lemma returned_bbox_lookup a bbox :
  returned a !! "bbox" = Some (VBox bbox) ->
  returned_bbox a
  = Some (pt_x (box_min bbox), pt_y (box_min bbox),
          ext_x (box_dims bbox), ext_y (box_dims bbox)).
Proof. intros H. unfold returned_bbox. by rewrite H. Qed.


Lemma bbox_centered_on_radec_witness :
  (args_llc args_radec_only = None /\
   args_radec args_radec_only = Some (10.5%float, 20.25%float) /\
   args_size args_radec_only = Some (101, 51) /\
   0 < 101 /\ 0 < 51 /\
   parse_args (base_namespace ∅ args_radec_only) []
     = (Ok (returned args_radec_only), snd (outcome args_radec_only))) /\
  exists wcs ctrPixPos bbox,
    returned args_radec_only !! "wcs" = Some (VWcs wcs) /\
    skyToPixel wcs (IcrsCoord_new (Angle_new 10.5%float degrees)
                                  (Angle_new 20.25%float degrees))
      = Ok ctrPixPos /\
    returned args_radec_only !! "bbox" = Some (VBox bbox) /\
    box_min bbox
      = mkPoint2I (wrap32 (pt_x (Point2I_of_Point2D ctrPixPos) - 101 ÷ 2))
                  (wrap32 (pt_y (Point2I_of_Point2D ctrPixPos) - 51 ÷ 2)) /\
    box_dims bbox = mkExtent2I 101 51.
Proof.
  pose proof (outcome_returned _ radec_only_returns) as Hrun.
  split; [split_and!; [reflexivity | reflexivity | reflexivity | reflexivity
                      | reflexivity | exact Hrun]|].
  apply (bbox_centered_on_radec (F:=framework) ∅ args_radec_only
           10.5%float 20.25%float 101 51 []
           (returned args_radec_only) (snd (outcome args_radec_only)));
    [reflexivity | reflexivity | reflexivity | reflexivity | reflexivity | exact Hrun].
Defined.

(** C1 as stated fails for a size that is not positive: with
    [--radec 10.5 20.25 --size -4 6] the run returns, and the box it stores
    is 4 wide, not -4, its corner shifted accordingly. *)
Lemma bbox_negative_size_counterexample :
  (args_llc args_radec_negative_size = None /\
   args_radec args_radec_negative_size = Some (10.5%float, 20.25%float) /\
   args_size args_radec_negative_size = Some (-4, 6) /\
   parse_args (base_namespace ∅ args_radec_negative_size) []
     = (Ok (returned args_radec_negative_size),
        snd (outcome args_radec_negative_size))) /\
  ~ (exists wcs ctrPixPos bbox,
       returned args_radec_negative_size !! "wcs" = Some (VWcs wcs) /\
       skyToPixel wcs (IcrsCoord_new (Angle_new 10.5%float degrees)
                                     (Angle_new 20.25%float degrees))
         = Ok ctrPixPos /\
       returned args_radec_negative_size !! "bbox" = Some (VBox bbox) /\
       box_min bbox
         = mkPoint2I (wrap32 (pt_x (Point2I_of_Point2D ctrPixPos) - (-4) ÷ 2))
                     (wrap32 (pt_y (Point2I_of_Point2D ctrPixPos) - 6 ÷ 2)) /\
       box_dims bbox = mkExtent2I (-4) 6).
Proof.
  split.
  - split_and!; [reflexivity | reflexivity | reflexivity |].
    exact (outcome_returned _ radec_negative_size_returns).
  - intros (wcs & ctrPixPos & bbox & _ & _ & Hbbox & _ & Hdims).
    apply returned_bbox_lookup in Hbbox.
    rewrite radec_negative_size_bbox, Hdims in Hbbox. discriminate Hbbox.
Qed.

Lemma tract_selection_witness :
  run (parse_args (base_namespace ∅ args_radec_only))
    = (Ok (returned args_radec_only), snd (outcome args_radec_only)) /\
  (forall t, args_tract args_radec_only = Some t ->
     Forall (fun c => is_getSkyTractId c = false) (snd (outcome args_radec_only))) /\
  (forall ns, Ok (returned args_radec_only) = Ok ns ->
     exists skyMap info,
       ns !! "skyMap" = Some (VSkyMap skyMap) /\
       ns !! "skyTractInfo" = Some (VTractInfo info) /\
       match args_tract args_radec_only with
       | Some t => getSkyTractInfo skyMap t = Ok info
       | None =>
           exists ra dec tractId,
             args_radec args_radec_only = Some (ra, dec) /\
             getSkyTractId skyMap
               (IcrsCoord_new (Angle_new ra degrees) (Angle_new dec degrees))
               = Ok tractId /\
             getSkyTractInfo skyMap tractId = Ok info
       end).
Proof.
  pose proof (outcome_returned _ radec_only_returns) as Hrun.
  split; [exact Hrun|].
  apply (tract_selection (F:=framework) ∅ args_radec_only
           (Ok (returned args_radec_only)) (snd (outcome args_radec_only))).
  exact Hrun.
Defined.




(* 10.5 degrees are 0.18325957145940461 radians as a double *)
Example radians_of_ten_and_a_half_degrees :
  asRadians (Angle_new 10.5%float degrees) = 0.18325957145940461%float.
Proof. vm_compute. reflexivity. Qed.

Lemma returned_namespace_attributes_witness :
  parse_args (base_namespace ∅ args_tract_llc) []
    = (Ok (returned args_tract_llc), snd (outcome args_tract_llc)) /\
  (forall name,
     name ∈ ["llc"; "size"; "scale"; "projection"; "overlap"; "tract"] ->
     returned args_tract_llc !! name = None) /\
  (exists radec bbox wcs skyMap info,
     returned args_tract_llc !! "radec" = Some (VCoord radec) /\
     returned args_tract_llc !! "bbox" = Some (VBox bbox) /\
     returned args_tract_llc !! "wcs" = Some (VWcs wcs) /\
     returned args_tract_llc !! "skyMap" = Some (VSkyMap skyMap) /\
     returned args_tract_llc !! "skyTractInfo" = Some (VTractInfo info) /\
     (args_radec args_tract_llc = None -> radec = getCtrCoord info)).
Proof.
  pose proof (outcome_returned _ tract_llc_returns) as Hrun.
  split; [exact Hrun|].
  apply (returned_namespace_attributes ∅ args_tract_llc [] _ _ Hrun).
Defined.




Example hsc_handled_ok :
  match fst hsc_handled with Ok _ => true | Raise _ => false end = true.
Proof. vm_compute. reflexivity. Qed.

(* hscSim has a default scale and no default overlap: --overlap is
   optional and defaults to None, --scale is optional with its default *)
Example hsc_declared_overlap :
  declared hsc_handled_parser "--overlap" = Some (false, None).
Proof. vm_compute. reflexivity. Qed.

Example hsc_declared_scale :
  declared hsc_handled_parser "--scale" = Some (false, Some 0.17%float).
Proof. vm_compute. reflexivity. Qed.

Lemma hsc_handled_eq :
  handleCamera base_pass hsc_parser hsc_namespace []
    = (Ok (hsc_handled_parser, hsc_namespace), []).
Proof. reflexivity. Qed.

Lemma overlap_required_iff_no_default_scale_witness :
  (hsc_namespace !! "camera" = Some (VStr "hscSim") /\
   handleCamera base_pass hsc_parser hsc_namespace []
     = (Ok (hsc_handled_parser, hsc_namespace), [])) /\
  exists based overlapArg,
    base_pass hsc_parser hsc_namespace = Ok (based, hsc_namespace) /\
    find_argument hsc_handled_parser "--overlap" = Some overlapArg /\
    (arg_required overlapArg = true <-> _DefaultScale based !! "hscSim" = None) /\
    arg_default overlapArg
      = from_option VFloat VNone (_DefaultOverlap based !! "hscSim") /\
    (is_Some (_DefaultScale based !! "hscSim") ->
     _DefaultOverlap based !! "hscSim" = None ->
     arg_required overlapArg = false /\ arg_default overlapArg = VNone).
Proof.
  split; [split; [reflexivity | exact hsc_handled_eq]|].
  apply (overlap_required_iff_no_default_scale
           base_pass hsc_parser hsc_namespace "hscSim" []
           hsc_handled_parser hsc_namespace []);
    [reflexivity | exact hsc_handled_eq].
Defined.

(* with the class's own tables a camera has a default scale exactly when
   it has a default overlap *)
Lemma class_tables_same_cameras camera :
  class_DefaultScale !! camera = None <-> class_DefaultOverlap !! camera = None.
Proof.
  unfold class_DefaultScale, class_DefaultOverlap.
  rewrite !lookup_insert_None, !lookup_empty. tauto.
Qed.
End Examples.
End CoaddProofs.

(** ** [qaTimeout] *)

Module QaTimeoutProofs.
Import QaTimeout MoreExamples.

Section Decorator.
Context {Params Value : Type}.
Implicit Types (body : Params -> Body Value) (func : Params -> Function Value).
Implicit Types (st : SignalState).

(** The three ways through the wrapper's set-up. *)
Lemma wrapper_other_thread timeout errMsg body args st :
  main_thread st = false ->
  wrapper timeout errMsg body args st = Returned (Raise ValueError) st.
Proof. intros Hmain. unfold wrapper, signal_signal. by rewrite Hmain. Qed.

Lemma wrapper_overflow timeout errMsg body args st :
  main_thread st = true ->
  in_int timeout = false ->
  wrapper timeout errMsg body args st
  = Returned (Raise OverflowError) (installed errMsg st).
Proof.
  intros Hmain Hfit. unfold wrapper, signal_signal, signal_alarm, installed.
  rewrite Hmain. cbn [main_thread sigalrm_handler alarm_remaining].
  by rewrite Hfit.
Qed.

Lemma wrapper_armed timeout errMsg body args st :
  main_thread st = true ->
  in_int timeout = true ->
  wrapper timeout errMsg body args st =
  match body args (armed timeout errMsg st) with
  | Returned r st2 =>
      Returned r (mkSignalState (main_thread st2) (sigalrm_handler st2) 0)
  | Diverges => Diverges
  | Killed => Killed
  end.
Proof.
  intros Hmain Hfit. unfold wrapper, signal_signal, signal_alarm, armed.
  rewrite Hmain. cbn [main_thread sigalrm_handler alarm_remaining].
  rewrite Hfit. by destruct (body args _).
Qed.

(** What a function that leaves the signal state alone does under the
    wrapper's alarm. *)
Lemma run_func_armed timeout errMsg (f : Function Value) st :
  run_func f (armed timeout errMsg st) =
  if fires (alarm_seconds timeout) (alone f)
  then undisturbed (interrupted f (TimeoutError errMsg))
         (mkSignalState (main_thread st) (PyHandler (_timeoutHandler errMsg)) 0)
  else undisturbed (alone f) (armed timeout errMsg st).
Proof. reflexivity. Qed.

Lemma fires_false timeout elapsed (r : result Value) :
  timeout = 0%N \/ (elapsed < timeout)%N ->
  fires timeout (Finishes elapsed r) = false.
Proof.
  intros H. unfold fires. apply andb_false_iff.
  destruct H as [->|H]; [by left|right]. apply N.leb_gt. lia.
Qed.

Lemma fires_true timeout (b : Behaviour Value) :
  (0 < timeout)%N ->
  b = Hangs \/ (exists elapsed r, b = Finishes elapsed r /\ (timeout <= elapsed)%N) ->
  fires timeout b = true.
Proof.
  intros Hpos [->|(elapsed & r & -> & Hle)]; unfold fires.
  - by apply N.ltb_lt.
  - apply andb_true_iff. split; [by apply N.ltb_lt | by apply N.leb_le].
Qed.

(** C8 (as amended): when the wrapper's [signal.signal] and
    [signal.alarm(timeout)] succeed (main thread, a timeout that fits a C
    [int]), with [s] the seconds the alarm is set to ([timeout] itself when
    it is not negative): a function that ends before [s] seconds, or any
    function when [s] is 0 and no alarm is set, makes the wrapper end
    exactly as it ends; when [s > 0] elapses first, [TimeoutError(errMsg)]
    is raised in the function and the wrapper ends the way the function
    then ends, which is with that [TimeoutError] unless the function
    catches it. *)
Theorem wrapper_result timeout errMsg func args st :
  main_thread st = true ->
  in_int timeout = true ->
  (forall elapsed r,
     alone (func args) = Finishes elapsed r ->
     alarm_seconds timeout = 0%N \/ (elapsed < alarm_seconds timeout)%N ->
     exists st', wrapper timeout errMsg (timed func) args st = Returned r st') /\
  ((0 < alarm_seconds timeout)%N ->
   alone (func args) = Hangs \/
     (exists elapsed r, alone (func args) = Finishes elapsed r /\
                        (alarm_seconds timeout <= elapsed)%N) ->
   (forall elapsed r,
      interrupted (func args) (TimeoutError errMsg) = Finishes elapsed r ->
      exists st', wrapper timeout errMsg (timed func) args st = Returned r st') /\
   (interrupted (func args) (TimeoutError errMsg) = Hangs ->
    wrapper timeout errMsg (timed func) args st = Diverges)) /\
  (0 <= timeout -> alarm_seconds timeout = Z.to_N timeout).
Proof.
  intros Hmain Hfit. rewrite (wrapper_armed _ _ _ _ _ Hmain Hfit).
  unfold timed. rewrite run_func_armed. split_and!.
  - intros elapsed r Hf Hin. rewrite Hf, (fires_false _ _ _ Hin).
    cbn [undisturbed]. eauto.
  - intros Hpos Hout. rewrite (fires_true _ _ Hpos Hout). split.
    + intros elapsed r ->. cbn [undisturbed]. eauto.
    + by intros ->.
  - intros Hnonneg. apply CoaddProofs.in_int_spec in Hfit. unfold alarm_seconds.
    by rewrite Z.mod_small by lia.
Qed.

(** C9 (as amended): an exit of the wrapper after its
    [signal.alarm(timeout)] succeeded, whatever the wrapped function did
    and however it ended, goes through [signal.alarm(0)] and leaves no
    alarm pending.  The two exits taken before the [try] skip it: the
    [ValueError] of [signal.signal] outside the main thread leaves the
    signal state as it was, the [OverflowError] of [signal.alarm(timeout)]
    leaves it as it was but for the handler, and on both an alarm that was
    pending stays pending. *)
Theorem wrapper_exit_disarmed timeout errMsg body args st r st' :
  wrapper timeout errMsg body args st = Returned r st' ->
  (main_thread st = true -> in_int timeout = true ->
   alarm_remaining st' = 0%N /\
   exists st2, body args (armed timeout errMsg st) = Returned r st2) /\
  (main_thread st = false -> r = Raise ValueError /\ st' = st) /\
  (main_thread st = true -> in_int timeout = false ->
   r = Raise OverflowError /\ st' = installed errMsg st).
Proof.
  intros Hexit. destruct (main_thread st) eqn:Hmain.
  - destruct (in_int timeout) eqn:Hfit.
    + rewrite (wrapper_armed _ _ _ _ _ Hmain Hfit) in Hexit.
      split_and!; [intros _ _ | done | done].
      destruct (body args _) as [r2 st2| |]; [|done|done].
      injection Hexit as <- <-. eauto.
    + rewrite (wrapper_overflow _ _ _ _ _ Hmain Hfit) in Hexit.
      injection Hexit as <- <-. split_and!; done.
  - rewrite (wrapper_other_thread _ _ _ _ _ Hmain) in Hexit.
    injection Hexit as <- <-. split_and!; done.
Qed.
End Decorator.

(* [@qaTimeout(timeout=10)] around a five-second function, timeout not reached *)
Example five_seconds_in_ten :
  wrapper 10 "Timer expired" (timed five_seconds) tt idle
  = Returned (Ok 42) (disarmed "Timer expired").
Proof. reflexivity. Qed.

(* [@qaTimeout(timeout=3)]: the alarm goes off first *)
Example five_seconds_in_three :
  wrapper 3 "Timer expired" (timed five_seconds) tt idle
  = Returned (Raise (TimeoutError "Timer expired")) (disarmed "Timer expired").
Proof. reflexivity. Qed.

(* [@qaTimeout(timeout=0)]: no alarm is armed *)
Example five_seconds_in_zero :
  wrapper 0 "Timer expired" (timed five_seconds) tt idle
  = Returned (Ok 42) (disarmed "Timer expired").
Proof. reflexivity. Qed.

Example failing_in_ten :
  wrapper 10 "Timer expired" (timed failing) tt idle
  = Returned (Raise IndexError) (disarmed "Timer expired").
Proof. reflexivity. Qed.

(* outside the main thread [signal.signal] refuses *)
Example five_seconds_other_thread :
  wrapper 10 "Timer expired" (timed five_seconds) tt other_thread
  = Returned (Raise ValueError) other_thread.
Proof. reflexivity. Qed.

(* [@qaTimeout(timeout=2**31)]: [signal.alarm] refuses *)
Example five_seconds_in_two_to_31 :
  wrapper 2147483648 "Timer expired" (timed five_seconds) tt idle
  = Returned (Raise OverflowError) (installed "Timer expired" idle).
Proof. reflexivity. Qed.

(* a function that catches the [TimeoutError] outlives the timeout *)
Example stubborn_in_three :
  wrapper 3 "Timer expired" (timed stubborn) tt idle
  = Returned (Ok 7) (disarmed "Timer expired").
Proof. reflexivity. Qed.

(* an alarm that was pending survives the exits before the [try] *)
Example busy_in_two_to_31 :
  wrapper 2147483648 "Timer expired" (timed five_seconds) tt busy
  = Returned (Raise OverflowError) (installed "Timer expired" busy).
Proof. reflexivity. Qed.

Example busy_other_thread :
  wrapper 10 "Timer expired" (timed five_seconds) tt busy_thread
  = Returned (Raise ValueError) busy_thread.
Proof. reflexivity. Qed.

(** C8 as stated fails in four ways, for a function that runs five seconds
    and would return 42.  With a timeout of 0 the timeout has elapsed before
    it returns, and its value is returned all the same.  Outside the main
    thread, and with a timeout of 2**31, it would return well within the
    timeout, and the wrapper raises [ValueError], or [OverflowError],
    without calling it.  With a timeout of 3 and a function that catches
    what is raised in it, the timeout elapses first and the wrapper returns
    the function's later value. *)
Lemma timeout_counterexample :
  ~ ((forall elapsed v,
        alone (five_seconds tt) = Finishes elapsed (Ok v) -> Z.of_N elapsed < 0 ->
        exists st', wrapper 0 "Timer expired" (timed five_seconds) tt idle
                    = Returned (Ok v) st') /\
     (forall elapsed r,
        alone (five_seconds tt) = Finishes elapsed r -> 0 <= Z.of_N elapsed ->
        exists st', wrapper 0 "Timer expired" (timed five_seconds) tt idle
                    = Returned (Raise (TimeoutError "Timer expired")) st')) /\
  ~ ((forall elapsed v,
        alone (five_seconds tt) = Finishes elapsed (Ok v) -> Z.of_N elapsed < 10 ->
        exists st', wrapper 10 "Timer expired" (timed five_seconds) tt other_thread
                    = Returned (Ok v) st') /\
     (forall elapsed r,
        alone (five_seconds tt) = Finishes elapsed r -> 10 <= Z.of_N elapsed ->
        exists st', wrapper 10 "Timer expired" (timed five_seconds) tt other_thread
                    = Returned (Raise (TimeoutError "Timer expired")) st')) /\
  ~ ((forall elapsed v,
        alone (five_seconds tt) = Finishes elapsed (Ok v) ->
        Z.of_N elapsed < 2147483648 ->
        exists st', wrapper 2147483648 "Timer expired" (timed five_seconds) tt idle
                    = Returned (Ok v) st') /\
     (forall elapsed r,
        alone (five_seconds tt) = Finishes elapsed r ->
        2147483648 <= Z.of_N elapsed ->
        exists st', wrapper 2147483648 "Timer expired" (timed five_seconds) tt idle
                    = Returned (Raise (TimeoutError "Timer expired")) st')) /\
  ~ ((forall elapsed v,
        alone (stubborn tt) = Finishes elapsed (Ok v) -> Z.of_N elapsed < 3 ->
        exists st', wrapper 3 "Timer expired" (timed stubborn) tt idle
                    = Returned (Ok v) st') /\
     (forall elapsed r,
        alone (stubborn tt) = Finishes elapsed r -> 3 <= Z.of_N elapsed ->
        exists st', wrapper 3 "Timer expired" (timed stubborn) tt idle
                    = Returned (Raise (TimeoutError "Timer expired")) st')).
Proof.
  split_and!.
  - intros [_ Htimeout].
    destruct (Htimeout 5%N (Ok 42) eq_refl) as [st' Hst']; [done|].
    rewrite five_seconds_in_zero in Hst'. discriminate Hst'.
  - intros [Hreturn _].
    destruct (Hreturn 5%N 42 eq_refl) as [st' Hst']; [done|].
    rewrite five_seconds_other_thread in Hst'. discriminate Hst'.
  - intros [Hreturn _].
    destruct (Hreturn 5%N 42 eq_refl) as [st' Hst']; [done|].
    rewrite five_seconds_in_two_to_31 in Hst'. discriminate Hst'.
  - intros [_ Htimeout].
    destruct (Htimeout 5%N (Ok 42) eq_refl) as [st' Hst']; [done|].
    rewrite stubborn_in_three in Hst'. discriminate Hst'.
Qed.

Lemma wrapper_result_witness :
  (main_thread idle = true /\ in_int 10 = true /\ in_int 3 = true) /\
  (exists st', wrapper 10 "Timer expired" (timed five_seconds) tt idle
               = Returned (Ok 42) st') /\
  (exists st', wrapper 3 "Timer expired" (timed five_seconds) tt idle
               = Returned (Raise (TimeoutError "Timer expired")) st') /\
  alarm_seconds 3 = Z.to_N 3.
Proof.
  split; [by split_and!|].
  destruct (wrapper_result 10 "Timer expired" five_seconds tt idle eq_refl eq_refl)
    as (Hbefore & _ & _).
  destruct (wrapper_result 3 "Timer expired" five_seconds tt idle eq_refl eq_refl)
    as (_ & Hafter & Hseconds).
  split_and!.
  - apply (Hbefore 5%N (Ok 42) eq_refl). by right.
  - destruct Hafter as [Hraises _]; [done | right; by exists 5%N, (Ok 42) |].
    apply (Hraises 0%N (Raise (TimeoutError "Timer expired")) eq_refl).
  - by apply Hseconds.
Defined.

(** C9 as stated fails on the two exits before the [try]: with an alarm
    already pending, a timeout of 2**31 or a call outside the main thread
    makes the wrapper leave on an exception without [signal.alarm(0)], the
    alarm still pending. *)
Lemma pending_alarm_counterexample :
  ~ (forall r st',
       wrapper 2147483648 "Timer expired" (timed five_seconds) tt busy
         = Returned r st' ->
       alarm_remaining st' = 0%N) /\
  ~ (forall r st',
       wrapper 10 "Timer expired" (timed five_seconds) tt busy_thread
         = Returned r st' ->
       alarm_remaining st' = 0%N).
Proof.
  split; intros Hcancelled.
  - specialize (Hcancelled _ _ busy_in_two_to_31). discriminate Hcancelled.
  - specialize (Hcancelled _ _ busy_other_thread). discriminate Hcancelled.
Qed.

Lemma wrapper_exit_disarmed_witness :
  wrapper 10 "Timer expired" (timed failing) tt idle
    = Returned (Raise IndexError) (disarmed "Timer expired") /\
  (main_thread idle = true -> in_int 10 = true ->
   alarm_remaining (disarmed "Timer expired") = 0%N /\
   exists st2, timed failing tt (armed 10 "Timer expired" idle)
               = Returned (Raise IndexError) st2) /\
  (main_thread idle = false ->
   Raise IndexError = Raise (A:=Z) ValueError /\ disarmed "Timer expired" = idle) /\
  (main_thread idle = true -> in_int 10 = false ->
   Raise IndexError = Raise (A:=Z) OverflowError /\
   disarmed "Timer expired" = installed "Timer expired" idle).
Proof.
  split; [reflexivity|].
  apply (wrapper_exit_disarmed 10 "Timer expired" (timed failing) tt idle).
  reflexivity.
Defined.

End QaTimeoutProofs.

(** ** [FakeSourcesTask] *)

Module FakesProofs.
Import Fakes.

(** C10: [run] returns [None] and leaves the heap as it found it, so the
    task, the exposure, the sources and the background are all unchanged. *)
Theorem run_is_a_stub (Obj : Type) (self exposure sources background : nat)
    (heap : gmap nat Obj) :
  fst (run Obj self exposure sources background heap) = PyNone /\
  snd (run Obj self exposure sources background heap) = heap /\
  (forall addr,
     addr ∈ [self; exposure; sources; background] ->
     snd (run Obj self exposure sources background heap) !! addr = heap !! addr).
Proof. unfold run. cbn [fst snd]. split_and!; done. Qed.

End FakesProofs.

(** * Further properties *)

Module CoaddMore.
Import CoaddArgumentParser CoaddProofs CoaddCalls.

Ltac start_run a :=
  rewrite parse_args_base_namespace;
  unfold skyMap_of, skyMap_call, pixelScale_of, overlap_of;
  start_geometry a.

(* two case splits on the same framework call agree *)
Ltac merge_calls :=
  simplify_eq;
  repeat match goal with
  | H1 : ?r = _, H2 : ?r = _ |- _ => rewrite H1 in H2
  end;
  simplify_eq.

Section Errors.
Context {F : Afw}.


(** X2: with [--size] given and fitting a C++ [int], and both [--tract]
    and [--radec] omitted, [parse_args] raises
    [RuntimeError("Must specify tract or radec")] right after constructing
    the sky map, whatever [--llc] is; no tract is looked up. *)
Theorem parse_args_must_specify_tract_or_radec rest a log0 size skyMap :
  args_size a = Some size ->
  fits_int (args_size a) ->
  args_tract a = None ->
  args_radec a = None ->
  skyMap_of a = Ok skyMap ->
  parse_args (base_namespace rest a) log0 =
  (Raise (RuntimeError "Must specify tract or radec"), log0 ++ [skyMap_call a]).
Proof.
  unfold fits_int.
  start_run a; intros [=] Hfs [=] [=] [=]; first [does_fit Hfs | reflexivity].
Qed.

(** X3: with [--size] given and fitting a C++ [int], [--tract] given and
    both [--llc] and [--radec] omitted, the tract is looked up first:
    [RuntimeError("Must specify llc or radec")] is raised only after
    [getSkyTractInfo] and [getWcs] have run, and an exception of
    [getSkyTractInfo] (an unknown tract id) takes precedence over it. *)
Theorem parse_args_must_specify_llc_or_radec rest a log0 size tractId skyMap :
  args_size a = Some size ->
  fits_int (args_size a) ->
  args_tract a = Some tractId ->
  args_llc a = None ->
  args_radec a = None ->
  skyMap_of a = Ok skyMap ->
  parse_args (base_namespace rest a) log0 =
  match getSkyTractInfo skyMap tractId with
  | Ok info =>
      (Raise (RuntimeError "Must specify llc or radec"),
       log0 ++ [skyMap_call a; Call_getSkyTractInfo skyMap tractId;
                Call_getWcs info])
  | Raise e =>
      (Raise e, log0 ++ [skyMap_call a; Call_getSkyTractInfo skyMap tractId])
  end.
Proof.
  unfold fits_int.
  start_run a; intros [=] Hfs [=] [=] [=] [=]; try (does_fit Hfs); merge_calls.
  all: rewrite <- ?app_assoc; reflexivity.
Qed.
End Errors.

Section Returns.
Context {F : Afw}.

Lemma coadd_geometry_calls a log0 c log :
  coadd_geometry a log0 = (Ok c, log) ->
  exists tractId,
    skyMap_of a = Ok (coadd_skyMap c) /\
    getSkyTractInfo (coadd_skyMap c) tractId = Ok (coadd_skyTractInfo c) /\
    coadd_wcs c = getWcs (coadd_skyTractInfo c) /\
    log = log0 ++ calls_of a (coadd_skyMap c) tractId (coadd_skyTractInfo c).
Proof.
  unfold calls_of, icrs_of_degrees, skyMap_of, skyMap_call, pixelScale_of, overlap_of.
  start_geometry a; intros [= <- <-]; cbn.
  all: eexists; split_and!; try done.
  all: rewrite <- ?app_assoc; reflexivity.
Qed.

(** X5: the framework calls of a run that returns are, in this order: the
    sky-map constructor; [getSkyTractId(radec)] exactly when [--tract] is
    omitted; [getSkyTractInfo] and [getWcs]; [skyToPixel(radec)] exactly
    when [--llc] is omitted; [getCtrCoord] exactly when [--radec] is
    omitted. *)
Theorem parse_args_calls rest a log0 ns log :
  parse_args (base_namespace rest a) log0 = (Ok ns, log) ->
  exists skyMap tractId info,
    ns !! "skyMap" = Some (VSkyMap skyMap) /\
    ns !! "skyTractInfo" = Some (VTractInfo info) /\
    getSkyTractInfo skyMap tractId = Ok info /\
    log = log0 ++ calls_of a skyMap tractId info.
Proof.
  intros Hrun. apply parse_args_Ok in Hrun as (c & Hgeo & ->).
  apply coadd_geometry_calls in Hgeo as (tractId & _ & Hinfo & _ & Hlog).
  destruct (coadd_namespace_present rest a c) as (_ & _ & _ & Hm & Hi).
  by exists (coadd_skyMap c), tractId, (coadd_skyTractInfo c).
Qed.

(** X6: the returned [skyMap] is [SkyMap(projection, Angle(scale,
    arcseconds), Angle(overlap, degrees))], and the returned [wcs] is the
    WCS of the returned [skyTractInfo]. *)
Theorem parse_args_skyMap_wcs rest a log0 ns log :
  parse_args (base_namespace rest a) log0 = (Ok ns, log) ->
  exists skyMap info,
    SkyMap_new (args_projection a)
               (Angle_new (args_scale a) arcseconds)
               (Angle_new (args_overlap a) degrees) = Ok skyMap /\
    ns !! "skyMap" = Some (VSkyMap skyMap) /\
    ns !! "skyTractInfo" = Some (VTractInfo info) /\
    ns !! "wcs" = Some (VWcs (getWcs info)).
Proof.
  intros Hrun. apply parse_args_Ok in Hrun as (c & Hgeo & ->).
  apply coadd_geometry_calls in Hgeo as (tractId & Hsky & _ & Hwcs & _).
  destruct (coadd_namespace_present rest a c) as (_ & _ & Hw & Hm & Hi).
  exists (coadd_skyMap c), (coadd_skyTractInfo c). split_and!; try done.
  by rewrite Hw, Hwcs.
Qed.

(** X7: [parse_args] leaves every attribute it does not set or delete as
    the base parser stored it; in particular [fwhm] is still there. *)
Theorem parse_args_frame rest a log0 ns log :
  parse_args (base_namespace rest a) log0 = (Ok ns, log) ->
  (forall name, name ∉ touched -> ns !! name = base_namespace rest a !! name) /\
  ns !! "fwhm" = Some (VFloat (args_fwhm a)).
Proof.
  intros Hrun. apply parse_args_Ok in Hrun as (c & _ & ->).
  assert (Hframe : forall name, name ∉ touched ->
            coadd_namespace rest a c !! name = base_namespace rest a !! name).
  { intros name Hname. unfold touched in Hname.
    repeat (apply not_elem_of_cons in Hname as [? Hname]).
    unfold coadd_namespace, strip, setattr.
    destruct (args_radec a);
      rewrite !lookup_delete_ne by done; by rewrite !lookup_insert_ne by done. }
  split; [exact Hframe|].
  rewrite Hframe.
  - unfold base_namespace. apply lookup_insert_eq.
  - unfold touched. intros Hin.
    repeat (apply elem_of_cons in Hin as [[=]|Hin]). by apply elem_of_nil in Hin.
Qed.

(** X8: with [--llc] omitted and a positive [--size], when the centre
    pixel is a pair of C++ [int]s and the subtraction of half the size does
    not wrap around below the smallest [int], the corner of the stored
    bounding box is the centre pixel minus the floor of half the size, its
    dimensions are the size, and the centre pixel lies inside the box:
    corner <= centre < corner + size on both axes. *)
Theorem bbox_contains_center rest a ra dec sx sy log0 ns log wcs ctrPixPos :
  args_llc a = None ->
  args_radec a = Some (ra, dec) ->
  args_size a = Some (sx, sy) ->
  0 < sx -> 0 < sy ->
  parse_args (base_namespace rest a) log0 = (Ok ns, log) ->
  ns !! "wcs" = Some (VWcs wcs) ->
  skyToPixel wcs (IcrsCoord_new (Angle_new ra degrees) (Angle_new dec degrees))
    = Ok ctrPixPos ->
  in_int (pt_x (Point2I_of_Point2D ctrPixPos)) = true ->
  in_int (pt_y (Point2I_of_Point2D ctrPixPos)) = true ->
  - 2 ^ 31 <= pt_x (Point2I_of_Point2D ctrPixPos) - sx / 2 ->
  - 2 ^ 31 <= pt_y (Point2I_of_Point2D ctrPixPos) - sy / 2 ->
  exists bbox,
    ns !! "bbox" = Some (VBox bbox) /\
    box_dims bbox = mkExtent2I sx sy /\
    pt_x (box_min bbox) = pt_x (Point2I_of_Point2D ctrPixPos) - sx / 2 /\
    pt_y (box_min bbox) = pt_y (Point2I_of_Point2D ctrPixPos) - sy / 2 /\
    pt_x (box_min bbox) <= pt_x (Point2I_of_Point2D ctrPixPos)
      < pt_x (box_min bbox) + sx /\
    pt_y (box_min bbox) <= pt_y (Point2I_of_Point2D ctrPixPos)
      < pt_y (box_min bbox) + sy.
Proof.
  intros Hllc Hradec Hsize Hx Hy Hrun Hwcs Hpix Hcx Hcy Hux Huy.
  apply parse_args_Ok in Hrun as (c & Hgeo & ->).
  apply coadd_geometry_Ok in Hgeo
    as (w' & h' & tractId & llcPixInd & Hsz & Hfit & _ & _ & _ & _ & Hcorner & Hbox & _).
  rewrite Hsize in Hsz. injection Hsz as <- <-.
  apply in_int_pair in Hfit as [Hfx Hfy].
  rewrite Hllc in Hcorner. destruct Hcorner as (radec & ctr & Hr & Hpix' & ->).
  rewrite Hradec in Hr. injection Hr as <-.
  destruct (coadd_namespace_present rest a c) as (_ & Hb & Hw & _).
  rewrite Hw in Hwcs. injection Hwcs as <-.
  unfold icrs_of_degrees in Hpix'. cbn [fst snd] in Hpix'.
  rewrite Hpix in Hpix'. injection Hpix' as <-.
  rewrite Box2I_new_positive in Hbox by done.
  exists (coadd_bbox c). split; [exact Hb|].
  rewrite Hbox. cbn [box_min box_dims].
  unfold Point2I_sub, Extent2I_div. cbn [pt_x pt_y ext_x ext_y].
  rewrite (wrap32_id (sx ÷ 2)) by by apply half_in_int.
  rewrite (wrap32_id (sy ÷ 2)) by by apply half_in_int.
  rewrite !Z.quot_div_nonneg by lia.
  apply in_int_spec in Hcx, Hcy.
  pose proof (Z.div_pos sx 2) as Hx0. pose proof (Z.div_lt sx 2) as Hx1.
  pose proof (Z.div_pos sy 2) as Hy0. pose proof (Z.div_lt sy 2) as Hy1.
  rewrite !wrap32_id by (apply in_int_spec; lia).
  split_and!; [done | done | done | lia..].
Qed.
End Returns.

Section Dynamic.
Context {F : Afw}.

(** X9: on a namespace whose [overlap] is [None] (a camera with a default
    scale and no default overlap, [--overlap] not given), [parse_args]
    returns no namespace: it raises before the sky map is constructed, with
    no framework call made. *)
Theorem parse_args_overlap_None (namespace : gmap string value) projection scale log0 :
  namespace !! "projection" = Some projection ->
  namespace !! "scale" = Some (VFloat scale) ->
  namespace !! "overlap" = Some VNone ->
  exists e, parse_args namespace log0 = (Raise e, log0).
Proof.
  intros Hp Hs Ho. exists TypeError. unfold parse_args.
  rewrite (bind_getattr _ _ _ _ _ Hp), (bind_getattr _ _ _ _ _ Hs).
  cbn [call_Angle]. rewrite bind_ret, (bind_getattr _ _ _ _ _ Ho).
  reflexivity.
Qed.
End Dynamic.

Section Camera.
Context {F : Afw}.

Lemma handleCamera_inv base_handleCamera self namespace camera log0 self' namespace' log :
  namespace !! "camera" = Some (VStr camera) ->
  handleCamera base_handleCamera self namespace log0
    = (Ok (self', namespace'), log) ->
  exists based,
    base_handleCamera self namespace = Ok (based, namespace') /\
    log = log0 /\
    self' = add_argument
      (add_argument based
         (mkArgument "--scale" None type_float
            (from_option VFloat VNone (_DefaultScale based !! camera))
            (is_None (from_option VFloat VNone (_DefaultScale based !! camera)))
            "Pixel scale for skycell, in arcsec/pixel"))
      (mkArgument "--overlap" None type_float
         (from_option VFloat VNone (_DefaultOverlap based !! camera))
         (eq_None (from_option VFloat VNone (_DefaultScale based !! camera)))
         "Overlap between adjacent sky tracts, in deg").
Proof.
  intros Hcamera. unfold handleCamera.
  rewrite (bind_getattr _ _ _ _ _ Hcamera).
  unfold lift, bind at 1.
  destruct (base_handleCamera self namespace) as [[based ns1]|e]; [|done].
  cbn [dict_get]. rewrite !bind_ret. unfold ret. intros [= <- <- <-].
  by exists based.
Qed.

(** X10: [handleCamera] appends exactly two declarations, [--scale] and
    then [--overlap], to what the base handler left, and keeps the tables;
    [--scale] is required exactly when the camera has no default scale, so
    an optional [--scale] always has a float default. *)
Theorem handleCamera_declares
    base_handleCamera self namespace camera log0 self' namespace' log :
  namespace !! "camera" = Some (VStr camera) ->
  handleCamera base_handleCamera self namespace log0
    = (Ok (self', namespace'), log) ->
  exists based scaleArg overlapArg,
    base_handleCamera self namespace = Ok (based, namespace') /\
    log = log0 /\
    arguments self' = arguments based ++ [scaleArg; overlapArg] /\
    _DefaultScale self' = _DefaultScale based /\
    _DefaultOverlap self' = _DefaultOverlap based /\
    arg_name scaleArg = "--scale" /\
    arg_name overlapArg = "--overlap" /\
    arg_default scaleArg = from_option VFloat VNone (_DefaultScale based !! camera) /\
    (arg_required scaleArg = true <-> _DefaultScale based !! camera = None) /\
    (arg_required scaleArg = false -> exists x, arg_default scaleArg = VFloat x).
Proof.
  intros Hcamera Hrun.
  destruct (handleCamera_inv _ _ _ _ _ _ _ _ Hcamera Hrun) as (based & Hbase & -> & ->).
  eexists based, _, _.
  split; [done|]. split; [done|].
  split; [unfold add_argument; cbn [arguments]; rewrite <- app_assoc; reflexivity|].
  cbn [add_argument _DefaultScale _DefaultOverlap arg_name arg_default arg_required].
  split_and!; try done.
  all: destruct (_DefaultScale based !! camera) as [x|]; cbn; try done.
  intros _. by exists x.
Qed.

Lemma find_last_argument (self : Parser) (a b : Argument) name :
  arg_name b = name ->
  find_argument (add_argument (add_argument self a) b) name = Some b.
Proof.
  intros Hb. unfold find_argument, add_argument; cbn [arguments].
  rewrite !filter_app, (filter_cons _ b), filter_nil.
  rewrite decide_True by done. apply last_snoc.
Qed.

Lemma find_middle_argument (self : Parser) (a b : Argument) name :
  arg_name a = name -> arg_name b <> name ->
  find_argument (add_argument (add_argument self a) b) name = Some a.
Proof.
  intros Ha Hb. unfold find_argument, add_argument; cbn [arguments].
  rewrite !filter_app, (filter_cons _ b), (filter_cons _ a), !filter_nil.
  rewrite decide_True by done. rewrite decide_False by done.
  rewrite app_nil_r. apply last_snoc.
Qed.

(** X11: with the class's own tables (and a base handler that leaves them
    alone), for every camera [--scale] and [--overlap] are either both
    required or both optional with float defaults: the base parser never
    leaves [scale] or [overlap] at [None]. *)
Theorem class_tables_scale_and_overlap
    base_handleCamera base namespace camera log0 self' namespace' log :
  namespace !! "camera" = Some (VStr camera) ->
  (forall self ns based ns',
     base_handleCamera self ns = Ok (based, ns') ->
     _DefaultScale based = _DefaultScale self /\
     _DefaultOverlap based = _DefaultOverlap self) ->
  handleCamera base_handleCamera (__init__ base) namespace log0
    = (Ok (self', namespace'), log) ->
  exists scaleArg overlapArg,
    find_argument self' "--scale" = Some scaleArg /\
    find_argument self' "--overlap" = Some overlapArg /\
    ((arg_required scaleArg = true /\ arg_required overlapArg = true) \/
     (arg_required scaleArg = false /\ arg_required overlapArg = false /\
      exists x y, arg_default scaleArg = VFloat x /\ arg_default overlapArg = VFloat y)).
Proof.
  intros Hcamera Hkeeps Hrun.
  destruct (handleCamera_inv _ _ _ _ _ _ _ _ Hcamera Hrun) as (based & Hbase & -> & ->).
  destruct (Hkeeps _ _ _ _ Hbase) as [Hs Ho]. cbn in Hs, Ho.
  eexists _, _. split; [by apply find_middle_argument|].
  split; [by apply find_last_argument|].
  cbn [arg_required arg_default]. rewrite Hs, Ho.
  unfold class_DefaultScale, class_DefaultOverlap.
  destruct (decide (camera = "lsstSim")) as [->|Hl].
  { right. rewrite !lookup_insert_eq. cbn. eauto 6. }
  destruct (decide (camera = "suprimecam")) as [->|Hsu].
  { right. rewrite !lookup_insert_ne by done. rewrite !lookup_insert_eq. cbn. eauto 6. }
  left. rewrite !lookup_insert_ne by done. by rewrite !lookup_empty.
Qed.
End Camera.

Section MoreWitnesses.
Import CoaddExamples MoreExamples PlaneSky.


Lemma fits_int_size_101_51 a :
  args_size a = Some (101, 51) -> fits_int (args_size a).
Proof. intros -> x y [= <- <-]. split; reflexivity. Qed.

Lemma parse_args_must_specify_tract_or_radec_witness :
  (args_size args_llc_only = Some (101, 51) /\
   fits_int (args_size args_llc_only) /\
   args_tract args_llc_only = None /\
   args_radec args_llc_only = None /\
   skyMap_of args_llc_only = Ok "STG") /\
  parse_args (base_namespace ∅ args_llc_only) [] =
  (Raise (RuntimeError "Must specify tract or radec"),
   [] ++ [skyMap_call args_llc_only]).
Proof.
  pose proof (fits_int_size_101_51 args_llc_only eq_refl) as Hfs.
  split; [split_and!; [reflexivity | exact Hfs | reflexivity..]|].
  apply (parse_args_must_specify_tract_or_radec (F:=framework) ∅ args_llc_only []
           (101, 51) "STG");
    [reflexivity | exact Hfs | reflexivity..].
Defined.

Lemma parse_args_must_specify_llc_or_radec_witness :
  (args_size args_tract_only = Some (101, 51) /\
   fits_int (args_size args_tract_only) /\
   args_tract args_tract_only = Some 4 /\
   args_llc args_tract_only = None /\
   args_radec args_tract_only = None /\
   skyMap_of args_tract_only = Ok "STG") /\
  parse_args (base_namespace ∅ args_tract_only) [] =
  match @getSkyTractInfo framework "STG" 4 with
  | Ok info =>
      (Raise (RuntimeError "Must specify llc or radec"),
       [] ++ [skyMap_call args_tract_only; Call_getSkyTractInfo "STG" 4;
              Call_getWcs info])
  | Raise e =>
      (Raise e, [] ++ [skyMap_call args_tract_only; Call_getSkyTractInfo "STG" 4])
  end.
Proof.
  pose proof (fits_int_size_101_51 args_tract_only eq_refl) as Hfs.
  split; [split_and!; [reflexivity | exact Hfs | reflexivity..]|].
  apply (parse_args_must_specify_llc_or_radec (F:=framework) ∅ args_tract_only []
           (101, 51) 4 "STG");
    [reflexivity | exact Hfs | reflexivity..].
Defined.

Lemma parse_args_calls_witness :
  parse_args (base_namespace ∅ args_radec_only) []
    = (Ok (returned args_radec_only), snd (outcome args_radec_only)) /\
  exists skyMap tractId info,
    returned args_radec_only !! "skyMap" = Some (VSkyMap skyMap) /\
    returned args_radec_only !! "skyTractInfo" = Some (VTractInfo info) /\
    getSkyTractInfo skyMap tractId = Ok info /\
    snd (outcome args_radec_only) = [] ++ calls_of args_radec_only skyMap tractId info.
Proof.
  pose proof (outcome_returned _ radec_only_returns) as Hrun.
  split; [exact Hrun|].
  apply (parse_args_calls (F:=framework) ∅ args_radec_only [] _ _ Hrun).
Defined.

Lemma parse_args_skyMap_wcs_witness :
  parse_args (base_namespace ∅ args_tract_llc) []
    = (Ok (returned args_tract_llc), snd (outcome args_tract_llc)) /\
  exists skyMap info,
    SkyMap_new (args_projection args_tract_llc)
               (Angle_new (args_scale args_tract_llc) arcseconds)
               (Angle_new (args_overlap args_tract_llc) degrees) = Ok skyMap /\
    returned args_tract_llc !! "skyMap" = Some (VSkyMap skyMap) /\
    returned args_tract_llc !! "skyTractInfo" = Some (VTractInfo info) /\
    returned args_tract_llc !! "wcs" = Some (VWcs (getWcs info)).
Proof.
  pose proof (outcome_returned _ tract_llc_returns) as Hrun.
  split; [exact Hrun|].
  apply (parse_args_skyMap_wcs (F:=framework) ∅ args_tract_llc [] _ _ Hrun).
Defined.

Lemma parse_args_frame_witness :
  parse_args (base_namespace ∅ args_tract_llc) []
    = (Ok (returned args_tract_llc), snd (outcome args_tract_llc)) /\
  (forall name, name ∉ touched ->
     returned args_tract_llc !! name = base_namespace ∅ args_tract_llc !! name) /\
  returned args_tract_llc !! "fwhm" = Some (VFloat (args_fwhm args_tract_llc)).
Proof.
  pose proof (outcome_returned _ tract_llc_returns) as Hrun.
  split; [exact Hrun|].
  apply (parse_args_frame (F:=framework) ∅ args_tract_llc [] _ _ Hrun).
Defined.

Example radec_only_wcs : returned_wcs args_radec_only = Some 3.
Proof. vm_compute. reflexivity. Qed.

Lemma returned_wcs_lookup a w :
  returned_wcs a = Some w -> returned a !! "wcs" = Some (VWcs w).
Proof.
  unfold returned_wcs.
  destruct (returned a !! "wcs") as [[]|]; intros [=]. by subst.
Qed.

Lemma bbox_contains_center_witness :
  (args_llc args_radec_only = None /\
   args_radec args_radec_only = Some (10.5%float, 20.25%float) /\
   args_size args_radec_only = Some (101, 51) /\
   0 < 101 /\ 0 < 51 /\
   parse_args (base_namespace ∅ args_radec_only) []
     = (Ok (returned args_radec_only), snd (outcome args_radec_only)) /\
   returned args_radec_only !! "wcs" = Some (VWcs 3) /\
   @skyToPixel framework 3 (IcrsCoord_new (Angle_new 10.5%float degrees)
                                          (Angle_new 20.25%float degrees))
     = Ok (3183, 353) /\
   in_int 3183 = true /\ in_int 353 = true /\
   - 2 ^ 31 <= 3183 - 101 / 2 /\ - 2 ^ 31 <= 353 - 51 / 2) /\
  exists bbox,
    returned args_radec_only !! "bbox" = Some (VBox bbox) /\
    box_dims bbox = mkExtent2I 101 51 /\
    pt_x (box_min bbox) = 3183 - 101 / 2 /\
    pt_y (box_min bbox) = 353 - 51 / 2 /\
    pt_x (box_min bbox) <= 3183 < pt_x (box_min bbox) + 101 /\
    pt_y (box_min bbox) <= 353 < pt_y (box_min bbox) + 51.
Proof.
  pose proof (outcome_returned _ radec_only_returns) as Hrun.
  pose proof (returned_wcs_lookup _ _ radec_only_wcs) as Hwcs.
  assert (Hpix : @skyToPixel framework 3
                   (IcrsCoord_new (Angle_new 10.5%float degrees)
                                  (Angle_new 20.25%float degrees))
                 = Ok (3183, 353)) by (vm_compute; reflexivity).
  split; [split_and!; first [exact Hrun | exact Hwcs | exact Hpix | reflexivity | done]|].
  apply (bbox_contains_center (F:=framework) ∅ args_radec_only
           10.5%float 20.25%float 101 51 []
           (returned args_radec_only) (snd (outcome args_radec_only)) 3 (3183, 353));
    [reflexivity | reflexivity | reflexivity | reflexivity | reflexivity
    | exact Hrun | exact Hwcs | exact Hpix | reflexivity | reflexivity | done | done].
Defined.

Lemma namespace_overlap_None_lookups :
  namespace_overlap_None !! "projection" = Some (VStr "STG") /\
  namespace_overlap_None !! "scale" = Some (VFloat 0.14%float) /\
  namespace_overlap_None !! "overlap" = Some VNone.
Proof. unfold namespace_overlap_None. split_and!; lookup_const. Qed.

Lemma parse_args_overlap_None_witness :
  (namespace_overlap_None !! "projection" = Some (VStr "STG") /\
   namespace_overlap_None !! "scale" = Some (VFloat 0.14%float) /\
   namespace_overlap_None !! "overlap" = Some VNone) /\
  exists e, parse_args namespace_overlap_None [] = (Raise e, []).
Proof.
  destruct namespace_overlap_None_lookups as (Hp & Hs & Ho).
  split; [by split_and!|].
  apply (parse_args_overlap_None (F:=framework) namespace_overlap_None
           (VStr "STG") 0.14%float [] Hp Hs Ho).
Defined.

Lemma handleCamera_declares_witness :
  (hsc_namespace !! "camera" = Some (VStr "hscSim") /\
   handleCamera base_pass hsc_parser hsc_namespace []
     = (Ok (hsc_handled_parser, hsc_namespace), [])) /\
  exists based scaleArg overlapArg,
    base_pass hsc_parser hsc_namespace = Ok (based, hsc_namespace) /\
    ([] : list Call) = [] /\
    arguments hsc_handled_parser = arguments based ++ [scaleArg; overlapArg] /\
    _DefaultScale hsc_handled_parser = _DefaultScale based /\
    _DefaultOverlap hsc_handled_parser = _DefaultOverlap based /\
    arg_name scaleArg = "--scale" /\
    arg_name overlapArg = "--overlap" /\
    arg_default scaleArg = from_option VFloat VNone (_DefaultScale based !! "hscSim") /\
    (arg_required scaleArg = true <-> _DefaultScale based !! "hscSim" = None) /\
    (arg_required scaleArg = false -> exists x, arg_default scaleArg = VFloat x).
Proof.
  split; [split; [reflexivity | exact hsc_handled_eq]|].
  apply (handleCamera_declares (F:=framework)
           base_pass hsc_parser hsc_namespace "hscSim" []
           hsc_handled_parser hsc_namespace []);
    [reflexivity | exact hsc_handled_eq].
Defined.

Lemma lsstSim_handled_eq :
  handleCamera base_pass (__init__ []) lsstSim_namespace []
    = (Ok (lsstSim_handled_parser, lsstSim_namespace), []).
Proof. reflexivity. Qed.

Lemma base_pass_keeps_tables (self : Parser) ns based ns' :
  base_pass self ns = Ok (based, ns') ->
  _DefaultScale based = _DefaultScale self /\
  _DefaultOverlap based = _DefaultOverlap self.
Proof. by intros [= <- <-]. Qed.

Lemma class_tables_scale_and_overlap_witness :
  (lsstSim_namespace !! "camera" = Some (VStr "lsstSim") /\
   (forall self ns based ns',
      base_pass self ns = Ok (based, ns') ->
      _DefaultScale based = _DefaultScale self /\
      _DefaultOverlap based = _DefaultOverlap self) /\
   handleCamera base_pass (__init__ []) lsstSim_namespace []
     = (Ok (lsstSim_handled_parser, lsstSim_namespace), [])) /\
  exists scaleArg overlapArg,
    find_argument lsstSim_handled_parser "--scale" = Some scaleArg /\
    find_argument lsstSim_handled_parser "--overlap" = Some overlapArg /\
    ((arg_required scaleArg = true /\ arg_required overlapArg = true) \/
     (arg_required scaleArg = false /\ arg_required overlapArg = false /\
      exists x y, arg_default scaleArg = VFloat x /\ arg_default overlapArg = VFloat y)).
Proof.
  split; [split_and!; [reflexivity | exact base_pass_keeps_tables | exact lsstSim_handled_eq]|].
  apply (class_tables_scale_and_overlap (F:=framework)
           base_pass [] lsstSim_namespace "lsstSim" []
           lsstSim_handled_parser lsstSim_namespace []);
    [reflexivity | exact base_pass_keeps_tables | exact lsstSim_handled_eq].
Defined.

Example lsstSim_declared_overlap :
  declared lsstSim_handled_parser "--overlap" = Some (false, Some 3.5%float).
Proof. vm_compute. reflexivity. Qed.
End MoreWitnesses.
End CoaddMore.

Module QaTimeoutMore.
Import QaTimeout QaTimeoutProofs MoreExamples.

Section Decorator.
Context {Params Value : Type}.
Implicit Types (func : Params -> Function Value) (st : SignalState).

(** X12: around a function that leaves the signal state alone, the wrapper
    fails to come back exactly when its set-up succeeds (main thread, a
    timeout that fits a C [int]) and either no alarm is set (0 seconds) and
    the function never ends, or the alarm goes off and the function, with
    [TimeoutError(errMsg)] raised in it, never ends.  The process is never
    killed by the default SIGALRM action, the handler being installed
    before the alarm is set.  So with a positive number of seconds and a
    function that ends once an exception is raised in it, the wrapper
    always comes back. *)
Theorem wrapper_diverges_iff timeout errMsg func args st :
  (wrapper timeout errMsg (timed func) args st = Diverges <->
   main_thread st = true /\ in_int timeout = true /\
   ((alarm_seconds timeout = 0%N /\ alone (func args) = Hangs) \/
    (fires (alarm_seconds timeout) (alone (func args)) = true /\
     interrupted (func args) (TimeoutError errMsg) = Hangs))) /\
  wrapper timeout errMsg (timed func) args st <> Killed /\
  (main_thread st = true -> in_int timeout = true ->
   (0 < alarm_seconds timeout)%N ->
   (forall e, interrupted (func args) e <> Hangs) ->
   exists r st', wrapper timeout errMsg (timed func) args st = Returned r st').
Proof.
  destruct (main_thread st) eqn:Hmain.
  - destruct (in_int timeout) eqn:Hfit.
    + rewrite (wrapper_armed _ _ _ _ _ Hmain Hfit).
      unfold timed. rewrite run_func_armed.
      destruct (fires (alarm_seconds timeout) (alone (func args))) eqn:Hfires.
      * destruct (interrupted (func args) (TimeoutError errMsg))
          as [elapsed r|] eqn:Hint; cbn [undisturbed].
        -- split_and!; [split; [done|] | done | eauto].
           intros (_ & _ & [[Hzero _]|[_ [=]]]).
           rewrite Hzero in Hfires. by destruct (alone (func args)).
        -- split_and!; [split; [intros _|done] | done |].
           ++ split_and!; [done | done | by right].
           ++ intros _ _ _ Hends. by destruct (Hends (TimeoutError errMsg)).
      * destruct (alone (func args)) as [elapsed r|] eqn:Halone; cbn [undisturbed].
        -- split_and!; [split; [done|] | done | eauto].
           by intros (_ & _ & [[_ [=]]|[[=] _]]).
        -- split_and!; [split; [intros _|done] | done |].
           ++ split_and!; [done | done | left; split; [|done]].
              cbn [fires] in Hfires. apply N.ltb_ge in Hfires. lia.
           ++ intros _ _ Hpos _. cbn [fires] in Hfires.
              apply N.ltb_ge in Hfires. lia.
    + rewrite (wrapper_overflow _ _ _ _ _ Hmain Hfit).
      split_and!; [split; [done | by intros (_ & [=] & _)] | done | done].
  - rewrite (wrapper_other_thread _ _ _ _ _ Hmain).
    split_and!; [split; [done | by intros ([=] & _)] | done | done].
Qed.

End Decorator.

Example hanging_in_three :
  wrapper 3 "Timer expired" (timed hanging) tt idle
  = Returned (Raise (TimeoutError "Timer expired")) (disarmed "Timer expired").
Proof. reflexivity. Qed.

Example hanging_in_zero :
  wrapper 0 "Timer expired" (timed hanging) tt idle = Diverges.
Proof. reflexivity. Qed.

(* a function that hangs and ignores what is raised in it *)
Example deaf_in_three :
  wrapper 3 "Timer expired" (timed deaf) tt idle = Diverges.
Proof. reflexivity. Qed.

(* a negative timeout is handed to [alarm] as a large unsigned number *)
Example five_seconds_in_minus_one :
  wrapper (-1) "Timer expired" (timed five_seconds) tt idle
  = Returned (Ok 42) (disarmed "Timer expired").
Proof. reflexivity. Qed.


End QaTimeoutMore.
